(** * opatch_diff: the inventory decoders, the release-update check and the
      comparator of [opatch_diff.py], embedded and verified.

    Text is modelled as Rocq [string]s whose characters stand for the code
    points 0..255.  Python's [int] is modelled by [Z]; CPython's optional
    limit on the number of digits accepted by [int(str)] is not modelled.
    A Python [dict] is an association list with unique keys kept in
    insertion order.  Printing, [sys.exit] and uncaught exceptions are
    threaded through a small state-and-outcome monad. *)

From Stdlib Require Import String Ascii List ZArith Lia Bool.
From Stdlib Require Import DecimalString DecimalPos Sorted.
Import ListNotations.
Local Open Scope string_scope.
Local Open Scope Z_scope.

(* ------------------------------------------------------------------ *)
(** ** Characters and the string methods the program calls *)

Module PyStr.

(** [str.isspace] on one character, restricted to code points below 256:
    TAB..CR, FS..US, SPACE, NEL and NBSP.  The same class is [\s] of [re]
    on [str] patterns and is what [str.strip()] trims. *)
Definition isspace (c : ascii) : bool :=
  let n := nat_of_ascii c in
  ((9 <=? n) && (n <=? 13))%nat || ((28 <=? n) && (n <=? 32))%nat
  || (n =? 133)%nat || (n =? 160)%nat.

(** [\d] of [re] on [str] patterns, below code point 256: the ASCII digits. *)
Definition isdigit (c : ascii) : bool :=
  let n := nat_of_ascii c in ((48 <=? n) && (n <=? 57))%nat.

Definition digit_value (c : ascii) : Z := Z.of_nat (nat_of_ascii c) - 48.

(** The whitespace [int()] drops around a number: [str.isspace] without
    FS..US. *)
Definition isspace_int (c : ascii) : bool :=
  let n := nat_of_ascii c in
  ((9 <=? n) && (n <=? 13))%nat || (n =? 32)%nat
  || (n =? 133)%nat || (n =? 160)%nat.

(** [s] without its leading characters of the class [f]. *)
Fixpoint lstrip_by (f : ascii -> bool) (s : string) : string :=
  match s with
  | String c r => if f c then lstrip_by f r else s
  | EmptyString => EmptyString
  end.

(** [s] without its trailing characters of the class [f]. *)
Fixpoint rstrip_by (f : ascii -> bool) (s : string) : string :=
  match s with
  | EmptyString => EmptyString
  | String c r =>
      match rstrip_by f r with
      | EmptyString => if f c then EmptyString else String c EmptyString
      | r' => String c r'
      end
  end.

(** [s.strip()] *)
Definition strip (s : string) : string := rstrip_by isspace (lstrip_by isspace s).

(** [c in s] for a one-character [c]; [s.find(c) == -1] is its negation. *)
Fixpoint contains (c : ascii) (s : string) : bool :=
  match s with
  | EmptyString => false
  | String a r => if Ascii.eqb a c then true else contains c r
  end.

(** [s.split(c, 1)] when [c] occurs in [s]: the text before the first [c]
    and the whole text after it; [None] when [c] does not occur. *)
Fixpoint split_once (c : ascii) (s : string) : option (string * string) :=
  match s with
  | EmptyString => None
  | String a r =>
      if Ascii.eqb a c then Some (EmptyString, r)
      else match split_once c r with
           | Some (l, t) => Some (String a l, t)
           | None => None
           end
  end.

(** [s.startswith(p)] *)
Definition startswith (p s : string) : bool := String.prefix p s.

(** [sep.join(parts)] *)
Definition join (sep : string) (parts : list string) : string :=
  String.concat sep parts.

(** The rest of [s] after the literal [p], when [s] starts with [p]. *)
Fixpoint after_literal (p s : string) : option string :=
  match p, s with
  | EmptyString, _ => Some s
  | String a p', String b s' => if Ascii.eqb a b then after_literal p' s' else None
  | String _ _, EmptyString => None
  end.

(** The longest prefix of [s] whose characters satisfy [f], and the rest:
    what a greedy [\s*] or [\d+] consumes when the next pattern item cannot
    match a character of the class. *)
Fixpoint span (f : ascii -> bool) (s : string) : string * string :=
  match s with
  | String c r =>
      if f c then let (a, b) := span f r in (String c a, b)
      else (EmptyString, s)
  | EmptyString => (EmptyString, EmptyString)
  end.

Definition is_empty (s : string) : bool :=
  match s with EmptyString => true | _ => false end.

(** The value of a string of decimal digits, most significant first. *)
Fixpoint digits_value_from (acc : Z) (s : string) : Z :=
  match s with
  | EmptyString => acc
  | String c r => digits_value_from (10 * acc + digit_value c) r
  end.

Definition digits_value (s : string) : Z := digits_value_from 0 s.

(** Digits with single underscores between them, as [int()] accepts. *)
Fixpoint int_digits (acc : Z) (after_digit : bool) (s : string) : option Z :=
  match s with
  | EmptyString => if after_digit then Some acc else None
  | String c r =>
      if isdigit c then int_digits (10 * acc + digit_value c) true r
      else if Ascii.eqb c "_" then
             (if after_digit then int_digits acc false r else None)
           else None
  end.

(** [int(s)] in base ten: surrounding whitespace is dropped, one sign is
    allowed; [None] stands for [ValueError]. *)
Definition int (s : string) : option Z :=
  match rstrip_by isspace_int (lstrip_by isspace_int s) with
  | String "-" r => option_map Z.opp (int_digits 0 false r)
  | String "+" r => int_digits 0 false r
  | t => int_digits 0 false t
  end.

(** An integer formatted inside an f-string. *)
Definition str_of_int (n : Z) : string := NilZero.string_of_int (Z.to_int n).

(** A value that is a string or [None], formatted inside an f-string. *)
Definition str_of_opt (x : option string) : string :=
  match x with Some s => s | None => "None" end.

(** The text up to (not including) the first line feed. *)
Fixpoint until_newline (s : string) : string :=
  match s with
  | EmptyString => EmptyString
  | String c r => if Ascii.eqb c "010" then EmptyString else String c (until_newline r)
  end.

(** The text before the last occurrence of [c] in [s]. *)
Fixpoint before_last (c : ascii) (s : string) : option string :=
  match s with
  | EmptyString => None
  | String a r =>
      match before_last c r with
      | Some t => Some (String a t)
      | None => if Ascii.eqb a c then Some EmptyString else None
      end
  end.

(** A line boundary of [str.splitlines], below code point 256. *)
Definition is_linebreak (c : ascii) : bool :=
  let n := nat_of_ascii c in
  ((10 <=? n) && (n <=? 13))%nat || ((28 <=? n) && (n <=? 30))%nat
  || (n =? 133)%nat.

(** [s.splitlines()]: [cur] is the line being read, if one was begun. *)
Fixpoint splitlines_from (cur : option string) (s : string) : list string :=
  match s with
  | EmptyString => match cur with Some l => [l] | None => [] end
  | String c r =>
      let l := match cur with Some l => l | None => EmptyString end in
      if is_linebreak c then
        match c, r with
        | "013"%char, String "010" r' => l :: splitlines_from None r'
        | _, _ => l :: splitlines_from None r
        end
      else splitlines_from (Some (l ++ String c EmptyString)) r
  end.

Definition splitlines (s : string) : list string := splitlines_from None s.

End PyStr.


(* ------------------------------------------------------------------ *)
(** ** The two regular expressions of [read_lsinventory] *)

Module Re.
Import PyStr.

Definition dquote : ascii := "034".

(** [re.search] of the header pattern [^Patch\s+(\d+)\s+:] in [line]:
    group 1 when the line matches.  [^] anchors the search at the start of the string; the
    character classes are disjoint from what follows them, so the greedy
    match is the only one. *)
Definition match_patch_header (line : string) : option string :=
  match after_literal "Patch" line with
  | None => None
  | Some r =>
      let (ws1, r1) := span isspace r in
      let (ds, r2) := span isdigit r1 in
      let (ws2, r3) := span isspace r2 in
      if is_empty ws1 || is_empty ds || is_empty ws2 then None
      else match r3 with
           | String ":" _ => Some ds
           | _ => None
           end
  end.

(** The description pattern, [Patch\s+description\s*:\s*] followed by a
    quoted greedy group of any characters, tried at the start of [s]:
    group 1.  The dot matches everything but a line feed and the star is
    greedy, so the group runs to the last quote before the first line
    feed. *)
Definition match_desc_at (s : string) : option string :=
  match after_literal "Patch" s with
  | None => None
  | Some r =>
      let (ws1, r1) := span isspace r in
      if is_empty ws1 then None
      else match after_literal "description" r1 with
           | None => None
           | Some r2 =>
               let (_, r3) := span isspace r2 in
               match r3 with
               | String ":" r4 =>
                   let (_, r5) := span isspace r4 in
                   match r5 with
                   | String c r6 =>
                       if Ascii.eqb c dquote
                       then before_last dquote (until_newline r6)
                       else None
                   | EmptyString => None
                   end
               | _ => None
               end
           end
  end.

(** [re.search] of the description pattern in a line: group 1 of the
    leftmost match. *)
Fixpoint search_desc (s : string) : option string :=
  match match_desc_at s with
  | Some g => Some g
  | None =>
      match s with
      | EmptyString => None
      | String _ r => search_desc r
      end
  end.

End Re.

(* ------------------------------------------------------------------ *)
(** ** Patch records and Patch Sets *)

(** The value stored under a patch identifier, a dict with the keys
    [description] and [extra_lines].  [description] is [None]
    when [read_lsinventory] saw no description line. *)
Record patch : Type := mk_patch {
  description : option string;
  extra_lines : string
}.

(** A Python [dict] keyed by integers, in insertion order. *)
Definition dict (V : Type) : Type := list (Z * V).

Definition keys {V} (d : dict V) : list Z := map fst d.

(** [d[k]]; [None] stands for [KeyError]. *)
Fixpoint dict_get {V} (k : Z) (d : dict V) : option V :=
  match d with
  | [] => None
  | (k', v) :: r => if k =? k' then Some v else dict_get k r
  end.

(** [d[k] = v]: an existing key keeps its place and takes the new value, a
    new key goes last. *)
Fixpoint dict_set {V} (k : Z) (v : V) (d : dict V) : dict V :=
  match d with
  | [] => [(k, v)]
  | (k', v') :: r => if k =? k' then (k, v) :: r else (k', v') :: dict_set k v r
  end.

(** [k in d] *)
Definition has_key {V} (k : Z) (d : dict V) : bool :=
  match dict_get k d with Some _ => true | None => false end.

Definition patch_set : Type := dict patch.

(** Truth value of an object that is an integer or [None]. *)
Definition truthy_id (x : option Z) : bool :=
  match x with Some n => negb (n =? 0) | None => false end.

(** Truth value of an object that is a string or [None]. *)
Definition truthy_str (x : option string) : bool :=
  match x with Some s => negb (PyStr.is_empty s) | None => false end.

(* ------------------------------------------------------------------ *)
(** ** Outcomes, the world and the monad *)

Inductive exn : Type :=
| AttributeError   (* attribute access on [None] *)
| KeyError
| ValueError
| OSError              (* a file or a program could not be opened *)
| UnicodeDecodeError.  (* a file was opened but its bytes do not decode *)

Inductive outcome (A : Type) : Type :=
| Ok (a : A)
| SysExit (code : Z)
| Raised (e : exn).
Arguments Ok {A} a.
Arguments SysExit {A} code.
Arguments Raised {A} e.

(** What [subprocess.run(..., check=True)] does. *)
Inductive proc_result : Type :=
| Completed (out : string)            (* exit status 0, captured stdout *)
| CalledProcessError (err : string)   (* non-zero exit status, captured stderr *)
| NotStarted.                         (* the program could not be started *)

(** Why a file yields no text: it cannot be opened, or it opens and its
    bytes do not decode; in the second case [lines_before] are the lines
    an iteration over the file hands out before the error shows. *)
Inductive read_failure : Type :=
| CannotOpen
| CannotDecode (lines_before : list string).

(** What the program sees of its surroundings.  [stdout] holds the text
    of every [print] call so far, oldest first.  [files] gives the text a
    file yields when it can be opened for reading and decoded, and
    [read_failure_of] says what goes wrong when it yields none.
    [fmt_list] is Python's rendering of a list of strings inside an
    f-string. *)
Record world : Type := mk_world {
  stdout : list string;
  files : string -> option string;
  writable : string -> bool;
  isdir : string -> bool;
  path_exists : string -> bool;
  isfile : string -> bool;
  access_x : string -> bool;
  run_process : list string -> string -> proc_result;
  fmt_list : list string -> string;
  read_failure_of : string -> read_failure
}.

Definition M (A : Type) : Type := world -> world * outcome A.

Definition ret {A} (a : A) : M A := fun w => (w, Ok a).

Definition bind {A B} (m : M A) (f : A -> M B) : M B :=
  fun w =>
    match m w with
    | (w', Ok a) => f a w'
    | (w', SysExit c) => (w', SysExit c)
    | (w', Raised e) => (w', Raised e)
    end.

Declare Scope py_scope.
Delimit Scope py_scope with py.
Notation "x <- m ;; k" := (bind m (fun x => k))
  (at level 61, m at next level, right associativity) : py_scope.
Notation "m ;; k" := (bind m (fun _ => k))
  (at level 61, right associativity) : py_scope.
Local Open Scope py_scope.

Definition with_stdout (o : list string) (w : world) : world :=
  mk_world o (files w) (writable w) (isdir w) (path_exists w) (isfile w)
           (access_x w) (run_process w) (fmt_list w) (read_failure_of w).

Definition with_file (p text : string) (w : world) : world :=
  mk_world (stdout w)
           (fun q => if String.eqb q p then Some text else files w q)
           (writable w) (isdir w) (path_exists w) (isfile w)
           (access_x w) (run_process w) (fmt_list w) (read_failure_of w).

(** [print(s)] *)
Definition print (s : string) : M unit :=
  fun w => (with_stdout (stdout w ++ [s]) w, Ok tt).

(** [sys.exit(code)] *)
Definition sys_exit {A} (code : Z) : M A := fun w => (w, SysExit code).

Definition raise {A} (e : exn) : M A := fun w => (w, Raised e).

Definition ask : M world := fun w => (w, Ok w).

(** The exception a failed read ends in. *)
Definition read_error (r : read_failure) : exn :=
  match r with
  | CannotOpen => OSError
  | CannotDecode _ => UnicodeDecodeError
  end.

(** [with open(p) as f: f.read()]: the whole text, or the exception of
    the failure; [read()] hands out nothing of a file that does not
    decode. *)
Definition read_file (p : string) : M string :=
  fun w => match files w p with
           | Some text => (w, Ok text)
           | None => (w, Raised (read_error (read_failure_of w p)))
           end.

(** [with open(p, 'w') as f: f.write(text)] *)
Definition write_file (p text : string) : M unit :=
  fun w => if writable w p then (with_file p text w, Ok tt)
           else (w, Raised OSError).

(* ------------------------------------------------------------------ *)
(** ** The program *)

Import PyStr.

Definition LF : string := String "010" EmptyString.

Definition is_nil {A} (l : list A) : bool :=
  match l with [] => true | _ => false end.

(** [class OPatchArg(NamedTuple)]; [output] may be [None]. *)
Record OPatchArg : Type := mk_OPatchArg {
  source : string;
  path : string;
  lspatches : bool;
  lsinventory : bool;
  output : option string
}.

(** The [for] loop of [read_lspatches], with the dict built so far. *)
Fixpoint read_lspatches_loop (patches : patch_set) (lines : list string)
         (filename : string) : M patch_set :=
  match lines with
  | [] => ret patches
  | line :: rest =>
      let line := strip line in
      if is_empty line || negb (contains ";" line)
      then read_lspatches_loop patches rest filename
      else
        match split_once ";" line with
        | None => raise ValueError
        | Some (num, desc) =>
            match int num with
            | Some patch_id =>
                read_lspatches_loop
                  (dict_set patch_id (mk_patch (Some desc) "") patches)
                  rest filename
            | None =>
                print ("error: invalid patch ID: '" ++ num ++ "' in " ++ filename) ;;
                sys_exit 1
            end
        end
  end.

Definition read_lspatches (lines : list string) (filename : string) : M patch_set :=
  read_lspatches_loop [] lines filename.

(** The local variables of [read_lsinventory]. *)
Record inv_state : Type := mk_inv_state {
  patches : patch_set;
  current_id : option Z;
  current_desc : option string;
  extra_buf : list string;          (* the list [extra_lines] *)
  is_capturing_extra : bool
}.

Definition inv_init : inv_state := mk_inv_state [] None None [] false.

(** [if current_id: patches[current_id] = {...}], the extra lines joined
    with [sep]. *)
Definition store_current (sep : string) (st : inv_state) : patch_set :=
  match current_id st with
  | Some id =>
      if truthy_id (Some id)
      then dict_set id (mk_patch (current_desc st) (join sep (extra_buf st)))
                    (patches st)
      else patches st
  | None => patches st
  end.

(** One turn of the [for] loop of [read_lsinventory]. *)
Definition lsinventory_step (st : inv_state) (line : string) : inv_state :=
  match Re.match_patch_header line with
  | Some digits =>
      mk_inv_state (store_current LF st) (Some (digits_value digits)) None [] false
  | None =>
      match Re.search_desc line, truthy_id (current_id st) with
      | Some text, true =>
          mk_inv_state (patches st) (current_id st) (Some text) (extra_buf st) true
      | _, _ =>
          if is_capturing_extra st && truthy_id (current_id st) then
            if negb (is_empty (strip line))
            then mk_inv_state (patches st) (current_id st) (current_desc st)
                              (extra_buf st ++ [line]) true
            else mk_inv_state (patches st) (current_id st) (current_desc st)
                              (extra_buf st) false
          else st
      end
  end.

Definition lsinventory_loop (st : inv_state) (lines : list string) : inv_state :=
  fold_left lsinventory_step lines st.

(** The code after the loop: the open record is stored with its extra
    lines joined by the empty string. *)
Definition lsinventory_finish (st : inv_state) : patch_set :=
  store_current "" st.

Definition read_lsinventory (lines : list string) : patch_set :=
  lsinventory_finish (lsinventory_loop inv_init lines).

Definition is_lsinventory (lines : list string) : bool :=
  existsb (fun line => startswith "Oracle Interim Patch Installer" line
                       || startswith "Interim patches" line) lines.

Definition read_patches (filename : string) : M patch_set :=
  text <- read_file filename ;;
  let lines := splitlines text in
  if is_nil lines then
    print ("error: no lines found in " ++ filename) ;; sys_exit 1
  else if is_lsinventory lines then
    print ("Reading patches from 'opatch lsinventory' " ++ filename ++ "...") ;;
    ret (read_lsinventory lines)
  else
    print ("Reading patches from 'opatch lspatches' " ++ filename ++ "...") ;;
    read_lspatches lines filename.

Definition ends_with_slash (s : string) : bool :=
  match before_last "/" s with
  | Some t => String.eqb s (t ++ "/")
  | None => false
  end.

(** [os.path.join(oracle_home, 'OPatch', 'opatch')] *)
Definition opatch_path_of (oracle_home : string) : string :=
  (if is_empty oracle_home || ends_with_slash oracle_home
   then oracle_home ++ "OPatch"
   else oracle_home ++ "/OPatch") ++ "/opatch".

Definition check_opatch_path (oracle_home : string) : M (option string) :=
  w <- ask ;;
  if negb (isdir w oracle_home) then
    print ("error: the directory " ++ oracle_home ++ " does not exist") ;; ret None
  else
    let opatch_path := opatch_path_of oracle_home in
    if negb (path_exists w opatch_path) then
      print ("error: the directory or file " ++ opatch_path ++ " does not exist") ;;
      ret None
    else if negb (isfile w opatch_path) || negb (access_x w opatch_path) then
      print ("error: " ++ opatch_path ++ " is not an executable file") ;; ret None
    else ret (Some opatch_path).

Definition read_opatch_output (oracle_home : string) (lines : list string)
           (is_lspatches : bool) : M patch_set :=
  if is_lspatches then
    print ("Reading patches from 'opatch lspatches' for ORACLE_HOME: "
             ++ oracle_home ++ "...") ;;
    read_lspatches lines oracle_home
  else
    print ("Reading patches from 'opatch lsinventory' for ORACLE_HOME: "
             ++ oracle_home ++ "...") ;;
    ret (read_lsinventory lines).

Definition run_opatch (src : OPatchArg) : M patch_set :=
  opatch <- check_opatch_path (path src) ;;
  match opatch with
  | None => ret []
  | Some opatch =>
      if is_empty opatch then ret []
      else
        let opatch_arg := if lspatches src then "lspatches" else "lsinventory" in
        let cmd := [opatch; opatch_arg] in
        print ("Running command: " ++ join " " cmd) ;;
        w <- ask ;;
        match run_process w cmd (path src) with
        | Completed out =>
            if negb (is_empty out) then
              (if truthy_str (output src) then
                 write_file (str_of_opt (output src)) out ;;
                 print ("OPatch output saved to file: " ++ str_of_opt (output src))
               else ret tt) ;;
              read_opatch_output (path src) (splitlines out) (lspatches src)
            else ret []
        | CalledProcessError err =>
            print ("error: command " ++ fmt_list w cmd
                     ++ " failed with error: " ++ err) ;;
            sys_exit 1
        | NotStarted => raise OSError
        end
  end.

Definition read_opatch_source (src : OPatchArg) : M patch_set :=
  if String.eqb (source src) "file" then
    patches <- read_patches (path src) ;;
    (if is_nil patches
     then print ("No patches found in the file " ++ path src) else ret tt) ;;
    ret patches
  else if String.eqb (source src) "oracle_home" then
    patches <- run_opatch src ;;
    (if is_nil patches
     then print ("No patches found in the Oracle Home " ++ path src) else ret tt) ;;
    ret patches
  else ret [].

Definition RU_MARKER : string := "Database Release Update".

(** [for num in d: if d[num]['description'].startswith(...): ru = ...; break]
    over the keys [ks] still to visit; the result is the value of [ru]. *)
Fixpoint find_release_update (d : patch_set) (ks : list Z) : M (option string) :=
  match ks with
  | [] => ret None
  | num :: rest =>
      match dict_get num d with
      | None => raise KeyError
      | Some p =>
          match description p with
          | None => raise AttributeError
          | Some text =>
              if startswith RU_MARKER text then ret (Some text)
              else find_release_update d rest
          end
      end
  end.

Definition opt_string_eqb (a b : option string) : bool :=
  match a, b with
  | Some x, Some y => String.eqb x y
  | None, None => true
  | _, _ => false
  end.

Definition check_release_update (first second : patch_set) : M unit :=
  ru1 <- find_release_update first (keys first) ;;
  ru2 <- find_release_update second (keys second) ;;
  if truthy_str ru1 && truthy_str ru2 && negb (opt_string_eqb ru1 ru2) then
    print (LF ++ " ===> WARNING: Database Release Updates differ:") ;;
    print ("  - First source  => " ++ str_of_opt ru1) ;;
    print ("  - Second source => " ++ str_of_opt ru2)
  else if truthy_str ru1 then
    print (LF ++ str_of_opt ru1)
  else ret tt.

(** The [for ... else] of [print_release_update]. *)
Fixpoint print_release_update_loop (d : patch_set) (ks : list Z) : M unit :=
  match ks with
  | [] => print "  - No Database Release Update found"
  | num :: rest =>
      match dict_get num d with
      | None => raise KeyError
      | Some p =>
          match description p with
          | None => raise AttributeError
          | Some text =>
              if startswith RU_MARKER text then print ("  - " ++ text)
              else print_release_update_loop d rest
          end
      end
  end.

Definition print_release_update (patches : patch_set) : M unit :=
  if is_nil patches then ret tt
  else
    print "Database Release Update:" ;;
    print_release_update_loop patches (keys patches).

(** [sorted(...)] on integers. *)
Fixpoint insert_sorted (x : Z) (l : list Z) : list Z :=
  match l with
  | [] => [x]
  | y :: r => if x <=? y then x :: l else y :: insert_sorted x r
  end.

Definition sorted (l : list Z) : list Z := fold_right insert_sorted [] l.

(** [set(a) - set(b)]: the keys of [a] that are not keys of [b], each once. *)
Definition key_difference (a b : patch_set) : list Z :=
  nodup Z.eq_dec (filter (fun k => negb (has_key k b)) (keys a)).

(** [patches_dif] of the first section of [compare_patches]. *)
Definition only_in_first (patches1 patches2 : patch_set) : list Z :=
  sorted (key_difference patches1 patches2).

(** [patches_dif] of the second section of [compare_patches]. *)
Definition only_in_second (patches1 patches2 : patch_set) : list Z :=
  sorted (key_difference patches2 patches1).

Definition source_label (a : OPatchArg) : string :=
  if String.eqb (source a) "oracle_home"
  then "ORACLE_HOME: " ++ path a
  else "file: " ++ path a.

(** The [for num in patches_dif] loops; [tail] is what follows the extra
    lines: nothing in the first section, a line feed in the second. *)
Fixpoint print_unique (short : bool) (tail : string) (d : patch_set)
         (nums : list Z) : M unit :=
  match nums with
  | [] => ret tt
  | num :: rest =>
      match dict_get num d with
      | None => raise KeyError
      | Some patch_data =>
          print (" ==> " ++ str_of_int num ++ "; "
                   ++ str_of_opt (description patch_data)) ;;
          (if negb short && negb (is_empty (extra_lines patch_data))
           then print (extra_lines patch_data ++ tail) else ret tt) ;;
          print_unique short tail d rest
      end
  end.

(** [compare_patches]; [short] is the global [args.short]. *)
Definition compare_patches (short : bool) (first second : OPatchArg)
           (patches1 patches2 : patch_set) : M unit :=
  print (LF ++ "Summary:") ;;
  let sources1 := source_label first in
  let sources2 := source_label second in
  print ("  - First source  => " ++ sources1 ++ " contains "
           ++ str_of_int (Z.of_nat (length patches1)) ++ " patches") ;;
  print ("  - Second source => " ++ sources2 ++ " contains "
           ++ str_of_int (Z.of_nat (length patches2)) ++ " patches") ;;
  check_release_update patches1 patches2 ;;
  print (LF ++ "Patches only in the first source:") ;;
  (let patches_dif := only_in_first patches1 patches2 in
   if is_nil patches_dif then print ("  No patches only in " ++ sources1)
   else print_unique short "" patches1 patches_dif) ;;
  print (LF ++ "Patches only in the second source:") ;;
  (let patches_dif := only_in_second patches1 patches2 in
   if is_nil patches_dif then print ("  No patches only in the " ++ sources2)
   else print_unique short LF patches2 patches_dif) ;;
  sys_exit 0.

(** [prepare_patches]; [second] may be [None]. *)
Definition prepare_patches (short : bool) (first : OPatchArg)
           (second : option OPatchArg) (ru : bool) : M unit :=
  patches1 <- read_opatch_source first ;;
  (if ru || negb (match second with Some _ => true | None => false end)
   then print_release_update patches1 else ret tt) ;;
  if is_nil patches1 then sys_exit 1
  else
    match second with
    | None => sys_exit 0
    | Some second =>
        print "" ;;
        patches2 <- read_opatch_source second ;;
        (if ru then print_release_update patches2 else ret tt) ;;
        if is_nil patches2 then sys_exit 1
        else if ru then sys_exit 0
        else compare_patches short first second patches1 patches2
    end.

(* ------------------------------------------------------------------ *)
(** ** Notions used to state the properties *)

(** A line that is neither a header line nor a description line. *)
Definition is_other_line (line : string) : bool :=
  match Re.match_patch_header line, Re.search_desc line with
  | None, None => true
  | _, _ => false
  end.

Definition is_blank (line : string) : bool := is_empty (strip line).

(** A Format-A line that is not skipped and whose text left of the first
    semicolon [int] rejects. *)
Definition malformed (line : string) : bool :=
  match split_once ";" (strip line) with
  | Some (num, _) => match int num with None => true | Some _ => false end
  | None => false
  end.

(** The record a Format-A line holds, if it holds one. *)
Definition lspatches_record (line : string) : option (Z * patch) :=
  match split_once ";" (strip line) with
  | Some (num, desc) =>
      match int num with
      | Some n => Some (n, mk_patch (Some desc) "")
      | None => None
      end
  | None => None
  end.

(** The records of a Format-A text, in the order of their lines. *)
Fixpoint lspatches_records (lines : list string) : list (Z * patch) :=
  match lines with
  | [] => []
  | line :: rest =>
      match lspatches_record line with
      | Some r => r :: lspatches_records rest
      | None => lspatches_records rest
      end
  end.

(** The record an assignment [patches[current_id] = ...] writes, if the
    guard [if current_id] lets it run. *)
Definition closed_by (sep : string) (st : inv_state) : list (Z * patch) :=
  match current_id st with
  | Some id =>
      if truthy_id (Some id)
      then [(id, mk_patch (current_desc st) (join sep (extra_buf st)))]
      else []
  | None => []
  end.

(** The records [read_lsinventory] closes, in the order it closes them:
    the loop run from [st], logging the assignments to [patches]. *)
Fixpoint lsinventory_records_from (st : inv_state) (lines : list string)
  : list (Z * patch) :=
  match lines with
  | [] => closed_by "" st
  | line :: rest =>
      (match Re.match_patch_header line with
       | Some _ => closed_by LF st
       | None => []
       end) ++ lsinventory_records_from (lsinventory_step st line) rest
  end.

Definition lsinventory_records (lines : list string) : list (Z * patch) :=
  lsinventory_records_from inv_init lines.

(** Writing a sequence of records into a dict, in order. *)
Definition store_all (recs : list (Z * patch)) (d : patch_set) : patch_set :=
  fold_left (fun acc r => dict_set (fst r) (snd r) acc) recs d.

(** Every record of the set has a description. *)
Definition all_described (d : patch_set) : Prop :=
  Forall (fun kv => description (snd kv) <> None) d.

(** The description of the first record, in insertion order, that begins
    with the release-update marker. *)
Fixpoint first_release_update (d : patch_set) : option string :=
  match d with
  | [] => None
  | (_, p) :: r =>
      match description p with
      | Some text => if startswith RU_MARKER text then Some text
                     else first_release_update r
      | None => first_release_update r
      end
  end.

(** The lines a capture takes from [lines]: those before the first blank
    one. *)
Fixpoint captured (lines : list string) : list string :=
  match lines with
  | [] => []
  | l :: r => if is_blank l then [] else l :: captured r
  end.

(** In a state the loop can reach, capturing implies an open record with a
    non-zero identifier. *)
Definition capture_inv (st : inv_state) : Prop :=
  is_capturing_extra st = true -> truthy_id (current_id st) = true.

(** The message [read_opatch_source] prints after reading a source that
    holds no patch. *)
Definition no_patches_message (src : OPatchArg) : string :=
  if String.eqb (source src) "file"
  then "No patches found in the file " ++ path src
  else "No patches found in the Oracle Home " ++ path src.

(** ** Sample inputs *)

Definition quoted (s : string) : string :=
  String Re.dquote (s ++ String Re.dquote EmptyString).

Definition desc_line (s : string) : string := "Patch description : " ++ quoted s.

(** A world with two text files and nothing else. *)
Definition sample_world : world :=
  mk_world []
    (fun p => if String.eqb p "a.txt" then Some ("hello" ++ LF)
              else if String.eqb p "b.txt"
                   then Some ("1;Desc A" ++ LF ++ "2;Desc B" ++ LF)
                   else if String.eqb p "bad.txt"
                        then Some ("1;Desc A" ++ LF ++ "abc;Bad ID" ++ LF)
                        else None)
    (fun _ => false) (fun _ => false) (fun _ => false) (fun _ => false)
    (fun _ => false) (fun _ _ => NotStarted) (fun _ => "")
    (fun _ => CannotOpen).

Definition file_arg (p : string) : OPatchArg :=
  mk_OPatchArg "file" p false false (Some "").

(** A world in which [/u01/db/OPatch/opatch] can be run and lists one
    patch. *)
Definition home_world : world :=
  mk_world [] (fun _ => None) (fun _ => true)
    (fun p => String.eqb p "/u01/db")
    (fun p => String.eqb p "/u01/db/OPatch/opatch")
    (fun p => String.eqb p "/u01/db/OPatch/opatch")
    (fun p => String.eqb p "/u01/db/OPatch/opatch")
    (fun cmd home =>
       match cmd with
       | [_; "lspatches"] =>
           Completed ("36912597;Database Release Update : 19.24" ++ LF)
       | _ => CalledProcessError "failed"
       end)
    (fun _ => "<cmd>")
    (fun _ => CannotOpen).

(* ------------------------------------------------------------------ *)
(** ** The oratab walk *)

(** The lines [for line in f] yields for a text file: each ends with its
    line feed, except possibly the last. *)
Fixpoint file_lines_from (cur : string) (s : string) : list string :=
  match s with
  | EmptyString => if is_empty cur then [] else [cur]
  | String c r =>
      if Ascii.eqb c "010"
      then (cur ++ String c EmptyString) :: file_lines_from EmptyString r
      else file_lines_from (cur ++ String c EmptyString) r
  end.

Definition file_lines (s : string) : list string := file_lines_from EmptyString s.

(** [s.split(c)[1]]; [None] stands for [IndexError]. *)
Definition second_field (c : ascii) (s : string) : option string :=
  match split_once c s with
  | None => None
  | Some (_, rest) =>
      match split_once c rest with
      | Some (field, _) => Some field
      | None => Some rest
      end
  end.

(** How [check_oratab_release_update] can end. *)
Inductive oratab_outcome : Type :=
| OratabReturn                  (* the function returns *)
| OratabExit (code : Z)         (* [sys.exit] inside [run_opatch] *)
| OratabRaised (e : exn)
| OratabIndexError.             (* [split(':')[1]] on a line without a colon *)

(** The body of the loop once a new [oracle_home] has been added to
    [found]. *)
Definition oratab_check_home (oracle_home : string) : M unit :=
  print ("Checking Release Update for ORACLE_HOME: " ++ oracle_home) ;;
  patches <- run_opatch (mk_OPatchArg "oracle_home" oracle_home true false (Some "")) ;;
  print_release_update patches ;;
  print "".

(** [oracle_home in found] *)
Definition in_found (oracle_home : string) (found : list string) : bool :=
  existsb (String.eqb oracle_home) found.

(** The [for line in f] loop of [check_oratab_release_update]; [found] is
    the set of homes seen so far. *)
Fixpoint oratab_loop (found : list string) (lines : list string) (w : world)
  : world * oratab_outcome :=
  match lines with
  | [] => (w, OratabReturn)
  | line :: rest =>
      let line := strip line in
      if is_empty line || startswith "#" line then oratab_loop found rest w
      else
        match second_field ":" line with
        | None => (w, OratabIndexError)
        | Some oracle_home =>
            if in_found oracle_home found then oratab_loop found rest w
            else
              match oratab_check_home oracle_home w with
              | (w', Ok _) => oratab_loop (oracle_home :: found) rest w'
              | (w', SysExit c) => (w', OratabExit c)
              | (w', Raised e) => (w', OratabRaised e)
              end
        end
  end.

Definition check_oratab_release_update (w : world) : world * oratab_outcome :=
  match files w "/etc/oratab" with
  | Some text => oratab_loop [] (file_lines text) w
  | None =>
      match read_failure_of w "/etc/oratab" with
      | CannotOpen => (w, OratabRaised OSError)
      | CannotDecode lines_before =>
          match oratab_loop [] lines_before w with
          | (w', OratabReturn) => (w', OratabRaised UnicodeDecodeError)
          | other => other
          end
      end
  end.

(* ------------------------------------------------------------------ *)
(** ** Further notions used to state properties *)

(** Every character of [s] satisfies [f]. *)
Fixpoint all_chars (f : ascii -> bool) (s : string) : bool :=
  match s with
  | EmptyString => true
  | String c r => f c && all_chars f r
  end.

(** What an oratab line asks for: nothing (blank or comment), a home, or
    a failing field access. *)
Definition oratab_entry (line : string) : option (option string) :=
  let line := strip line in
  if is_empty line || startswith "#" line then None
  else Some (second_field ":" line).

(** The homes of [lines] that are not in [found], each at its first
    appearance. *)
Fixpoint new_homes (found : list string) (lines : list string) : list string :=
  match lines with
  | [] => []
  | line :: rest =>
      match oratab_entry line with
      | Some (Some h) =>
          if in_found h found then new_homes found rest
          else h :: new_homes (h :: found) rest
      | _ => new_homes found rest
      end
  end.

(** Checking a list of homes one after the other. *)
Fixpoint check_homes (homes : list string) (w : world) : world * oratab_outcome :=
  match homes with
  | [] => (w, OratabReturn)
  | h :: r =>
      match oratab_check_home h w with
      | (w', Ok _) => check_homes r w'
      | (w', SysExit c) => (w', OratabExit c)
      | (w', Raised e) => (w', OratabRaised e)
      end
  end.

(** A computation that never hands a value back to its caller. *)
Definition no_return {A} (m : M A) : Prop :=
  forall w w' a, m w <> (w', Ok a).

(** A computation whose [sys.exit] codes all satisfy [P]. *)
Definition exits_within {A} (P : Z -> Prop) (m : M A) : Prop :=
  forall w w' c, m w = (w', SysExit c) -> P c.

(** The exit statuses the program uses. *)
Definition zero_or_one (c : Z) : Prop := c = 0 \/ c = 1.

(** A Format-A line for the record [(n, desc)]. *)
Definition lspatches_line (r : Z * string) : string :=
  str_of_int (fst r) ++ String ";" (snd r).

(** A Format-B header line for the identifier written [digits]. *)
Definition header_line (digits : string) : string := "Patch " ++ digits ++ " :".

(** One patch of a Format-B text: its header, its description line, its
    detail lines and what follows them up to the next header. *)
Record inv_block : Type := mk_inv_block {
  blk_digits : string;
  blk_desc : string;
  blk_extra : list string;
  blk_after : list string
}.

Definition block_lines (b : inv_block) : list string :=
  header_line (blk_digits b) :: desc_line (blk_desc b)
    :: (blk_extra b ++ blk_after b).

(** The identifier is a non-empty digit string with a value other than 0,
    the description has no line feed, the detail lines are neither blank
    nor header or description lines, and what follows them begins with a
    blank line and holds no header or description line. *)
Definition wf_block (b : inv_block) : Prop :=
  blk_digits b <> EmptyString
  /\ all_chars isdigit (blk_digits b) = true
  /\ digits_value (blk_digits b) <> 0
  /\ contains "010" (blk_desc b) = false
  /\ Forall (fun l => is_other_line l = true /\ is_blank l = false) (blk_extra b)
  /\ Forall (fun l => is_other_line l = true) (blk_after b)
  /\ match blk_after b with [] => True | l :: _ => is_blank l = true end.

(** The records a sequence of blocks stands for: the detail lines joined
    by line feeds, except in the last block, where they are concatenated. *)
Fixpoint block_records (bs : list inv_block) : list (Z * patch) :=
  match bs with
  | [] => []
  | b :: rest =>
      (digits_value (blk_digits b),
       mk_patch (Some (blk_desc b))
                (join (match rest with [] => EmptyString | _ => LF end) (blk_extra b)))
        :: block_records rest
  end.

(** The identifier of [r] is the number of a header line of [lines], its
    description is absent or the quoted text of a description line of
    [lines], and its extra lines are lines of [lines], none of them blank,
    a header or a description line, joined by line feeds or by nothing. *)
Definition from_input (lines : list string) (r : Z * patch) : Prop :=
  (exists h digits,
      In h lines /\ Re.match_patch_header h = Some digits
      /\ fst r = digits_value digits)
  /\ (description (snd r) = None
      \/ exists l, In l lines /\ Re.match_patch_header l = None
                   /\ Re.search_desc l = description (snd r))
  /\ exists buf sep,
      extra_lines (snd r) = join sep buf
      /\ (sep = LF \/ sep = EmptyString)
      /\ Forall (fun l => In l lines /\ is_other_line l = true /\ is_blank l = false) buf.

(** The lines [print_unique] prints for [nums]. *)
Definition unique_lines (short : bool) (tail : string) (d : patch_set)
           (nums : list Z) : list string :=
  flat_map
    (fun num =>
       match dict_get num d with
       | Some patch_data =>
           (" ==> " ++ str_of_int num ++ "; " ++ str_of_opt (description patch_data))
             :: (if negb short && negb (is_empty (extra_lines patch_data))
                 then [extra_lines patch_data ++ tail] else [])
       | None => []
       end) nums.

(** The open record of [st] and the records stored so far all come from
    [lines]. *)
Definition state_from_input (lines : list string) (st : inv_state) : Prop :=
  (current_id st = None
   \/ exists h digits,
        In h lines /\ Re.match_patch_header h = Some digits
        /\ current_id st = Some (digits_value digits))
  /\ (current_desc st = None
      \/ exists l, In l lines /\ Re.match_patch_header l = None
                   /\ Re.search_desc l = current_desc st)
  /\ Forall (fun l => In l lines /\ is_other_line l = true /\ is_blank l = false)
            (extra_buf st)
  /\ Forall (from_input lines) (patches st).

(* ================================================================== *)
(** * Properties *)

(** ** Facts about dicts *)

Section DictFacts.
Context {V : Type}.
Implicit Types (d : dict V) (k : Z) (v : V).

Lemma dict_get_set_same k v d : dict_get k (dict_set k v d) = Some v.
Proof.
  induction d as [|[k' v'] r IH]; simpl.
  - now rewrite Z.eqb_refl.
  - destruct (k =? k') eqn:E; simpl; rewrite ?Z.eqb_refl, ?E; auto.
Qed.

Lemma dict_get_set_other k k' v d :
  k <> k' -> dict_get k (dict_set k' v d) = dict_get k d.
Proof.
  intros Hne. apply Z.eqb_neq in Hne.
  induction d as [|[k0 v0] r IH]; simpl.
  - now rewrite Hne.
  - destruct (k' =? k0) eqn:E; simpl.
    + apply Z.eqb_eq in E; subst k0. now rewrite Hne.
    + now rewrite IH.
Qed.

Lemma keys_dict_set x k v d :
  In x (keys (dict_set k v d)) <-> x = k \/ In x (keys d).
Proof.
  unfold keys. induction d as [|[k0 v0] r IH]; simpl.
  - intuition.
  - destruct (k =? k0) eqn:E; simpl.
    + apply Z.eqb_eq in E; subst k0. intuition.
    + rewrite IH. intuition.
Qed.

Lemma NoDup_keys_dict_set k v d :
  NoDup (keys d) -> NoDup (keys (dict_set k v d)).
Proof.
  induction d as [|[k0 v0] r IH]; simpl; intros Hnd.
  - constructor; [intros []|constructor].
  - inversion Hnd as [|? ? Hnotin Hnd']; subst.
    destruct (k =? k0) eqn:E; simpl.
    + apply Z.eqb_eq in E; subst k0. now constructor.
    + constructor; [|now apply IH].
      intros Hin. apply (keys_dict_set k0 k v r) in Hin.
      destruct Hin as [->|Hin]; [now rewrite Z.eqb_refl in E|auto].
Qed.

Lemma dict_get_None k d : dict_get k d = None <-> ~ In k (keys d).
Proof.
  induction d as [|[k0 v0] r IH]; simpl.
  - intuition.
  - destruct (k =? k0) eqn:E.
    + apply Z.eqb_eq in E; subst. split; [discriminate|intros H; exfalso; auto].
    + apply Z.eqb_neq in E. rewrite IH. intuition.
Qed.

Lemma dict_get_In k v d : dict_get k d = Some v -> In (k, v) d.
Proof.
  induction d as [|[k0 v0] r IH]; simpl; [discriminate|].
  destruct (k =? k0) eqn:E.
  - apply Z.eqb_eq in E; subst. intros [= ->]. now left.
  - intros H. right. auto.
Qed.

Lemma has_key_In k d : has_key k d = true <-> In k (keys d).
Proof.
  unfold has_key. destruct (dict_get k d) eqn:E.
  - split; [intros _|reflexivity].
    destruct (in_dec Z.eq_dec k (keys d)) as [H|H]; [exact H|].
    apply dict_get_None in H. congruence.
  - split; [discriminate|]. intros H. now apply dict_get_None in E.
Qed.

End DictFacts.

(** ** Writing a sequence of records *)

Lemma store_all_app r1 r2 d : store_all (r1 ++ r2) d = store_all r2 (store_all r1 d).
Proof. unfold store_all. apply fold_left_app. Qed.

Lemma NoDup_keys_store_all recs : forall d,
  NoDup (keys d) -> NoDup (keys (store_all recs d)).
Proof.
  induction recs as [|[n p] r IH]; simpl; intros d Hd; [exact Hd|].
  apply IH. now apply NoDup_keys_dict_set.
Qed.

Lemma dict_get_store_all_absent n recs : forall d,
  ~ In n (keys recs) -> dict_get n (store_all recs d) = dict_get n d.
Proof.
  induction recs as [|[k p] r IH]; simpl; intros d Hn; [reflexivity|].
  rewrite IH by tauto. apply dict_get_set_other. intros ->. tauto.
Qed.

Lemma dict_get_store_all_last n p before after d :
  ~ In n (keys after) ->
  dict_get n (store_all (before ++ (n, p) :: after) d) = Some p.
Proof.
  intros Hn. rewrite store_all_app. simpl.
  rewrite dict_get_store_all_absent by exact Hn.
  apply dict_get_set_same.
Qed.

Lemma keys_store_all x recs : forall d,
  In x (keys (store_all recs d)) <-> In x (keys recs) \/ In x (keys d).
Proof.
  induction recs as [|[k p] r IH]; simpl; intros d; [tauto|].
  rewrite IH, keys_dict_set. intuition.
Qed.

(** ** The Format-B loop and the records it closes *)

Lemma store_current_closed_by sep st :
  store_current sep st = store_all (closed_by sep st) (patches st).
Proof.
  unfold store_current, closed_by.
  destruct (current_id st) as [id|]; [|reflexivity].
  destruct (truthy_id (Some id)); reflexivity.
Qed.

Lemma patches_lsinventory_step st line :
  patches (lsinventory_step st line)
  = match Re.match_patch_header line with
    | Some _ => store_current LF st
    | None => patches st
    end.
Proof.
  unfold lsinventory_step.
  destruct (Re.match_patch_header line); [reflexivity|].
  destruct (Re.search_desc line), (truthy_id (current_id st)); simpl;
    try reflexivity;
    rewrite ?andb_false_r, ?andb_true_r;
    destruct (is_capturing_extra st); simpl; try reflexivity;
    destruct (is_empty (strip line)); reflexivity.
Qed.

Lemma lsinventory_loop_cons st line lines :
  lsinventory_loop st (line :: lines)
  = lsinventory_loop (lsinventory_step st line) lines.
Proof. reflexivity. Qed.

Lemma lsinventory_loop_app st l1 l2 :
  lsinventory_loop st (l1 ++ l2) = lsinventory_loop (lsinventory_loop st l1) l2.
Proof. unfold lsinventory_loop. apply fold_left_app. Qed.

Lemma lsinventory_finish_records lines : forall st,
  lsinventory_finish (lsinventory_loop st lines)
  = store_all (lsinventory_records_from st lines) (patches st).
Proof.
  induction lines as [|line rest IH]; intros st.
  - apply store_current_closed_by.
  - rewrite lsinventory_loop_cons, IH. simpl.
    rewrite store_all_app, patches_lsinventory_step.
    destruct (Re.match_patch_header line); [|reflexivity].
    now rewrite store_current_closed_by.
Qed.

Lemma read_lsinventory_records lines :
  read_lsinventory lines = store_all (lsinventory_records lines) [].
Proof. apply lsinventory_finish_records. Qed.

Lemma closed_by_nonzero sep st :
  Forall (fun r => fst r <> 0) (closed_by sep st).
Proof.
  unfold closed_by. destruct (current_id st) as [id|]; [|constructor].
  simpl. destruct (id =? 0) eqn:E; simpl; constructor; [|constructor].
  simpl. now apply Z.eqb_neq.
Qed.

Lemma lsinventory_records_nonzero lines : forall st,
  Forall (fun r => fst r <> 0) (lsinventory_records_from st lines).
Proof.
  induction lines as [|line rest IH]; intros st; simpl.
  - apply closed_by_nonzero.
  - apply Forall_app. split; [|apply IH].
    destruct (Re.match_patch_header line); [apply closed_by_nonzero|constructor].
Qed.

(** C10.  In the Format-B decoder no record with identifier 0 ever appears
    in the output, whatever the input.  The header line [Patch 0 :] does
    open a record with identifier 0; while it is open, a later header
    replaces it without storing it, every other line (a description line
    included) leaves the state as it is, and the code after the loop does
    not store it either. *)
Theorem lsinventory_never_stores_zero :
  forall (lines : list string) (st : inv_state) (p : patch_set)
         (d : option string) (buf : list string) (cap : bool) (line : string),
    dict_get 0 (read_lsinventory lines) = None
    /\ lsinventory_step st "Patch 0 :"
       = mk_inv_state (store_current LF st) (Some 0) None [] false
    /\ lsinventory_step (mk_inv_state p (Some 0) d buf cap) line
       = match Re.match_patch_header line with
         | Some digits => mk_inv_state p (Some (digits_value digits)) None [] false
         | None => mk_inv_state p (Some 0) d buf cap
         end
    /\ lsinventory_finish (mk_inv_state p (Some 0) d buf cap) = p.
Proof.
  intros lines st p d buf cap line. repeat split.
  - rewrite read_lsinventory_records.
    rewrite dict_get_store_all_absent; [reflexivity|].
    intros Hin. unfold keys in Hin. apply in_map_iff in Hin.
    destruct Hin as [r [Hr Hin]].
    pose proof (lsinventory_records_nonzero lines inv_init) as Hall.
    rewrite Forall_forall in Hall. now apply (Hall r Hin).
  - unfold lsinventory_step.
    destruct (Re.match_patch_header line); [reflexivity|].
    simpl. rewrite andb_false_r. now destruct (Re.search_desc line).
Qed.

(** ** Sorting and the two difference lists *)

Lemma In_insert_sorted x y l : In x (insert_sorted y l) <-> x = y \/ In x l.
Proof.
  induction l as [|z r IH]; simpl; [intuition|].
  destruct (y <=? z); simpl; [intuition|]. rewrite IH. intuition.
Qed.

Lemma In_sorted x l : In x (sorted l) <-> In x l.
Proof.
  induction l as [|y r IH]; simpl; [tauto|].
  rewrite In_insert_sorted, IH. intuition.
Qed.

Lemma In_key_difference x a b :
  In x (key_difference a b) <-> In x (keys a) /\ ~ In x (keys b).
Proof.
  unfold key_difference. rewrite nodup_In, filter_In, negb_true_iff.
  rewrite <- (has_key_In x b). destruct (has_key x b); intuition congruence.
Qed.

(** C8.  For any two Patch Sets [A] and [B], the identifiers listed as
    present only in the first source when comparing [(A, B)] are the
    identifiers listed as present only in the second source when comparing
    [(B, A)]: the two lists are equal, and they hold exactly the keys of
    [A] that are not keys of [B]. *)
Theorem compare_only_first_is_swapped_only_second :
  forall A B : patch_set,
    only_in_first A B = only_in_second B A
    /\ forall n, In n (only_in_first A B) <-> In n (keys A) /\ ~ In n (keys B).
Proof.
  intros A B. split; [reflexivity|].
  intros n. unfold only_in_first. now rewrite In_sorted, In_key_difference.
Qed.

(** ** Splitting at the first separator *)

Lemma contains_split_once c s :
  contains c s = false <-> split_once c s = None.
Proof.
  induction s as [|a r IH]; simpl; [tauto|].
  destruct (Ascii.eqb a c); [split; discriminate|].
  rewrite IH. destruct (split_once c r) as [[l t]|]; split; congruence.
Qed.

Lemma split_once_spec c s l t :
  split_once c s = Some (l, t) <-> s = (l ++ String c t)%string /\ contains c l = false.
Proof.
  revert l. induction s as [|a r IH]; intros l; simpl.
  - split; [discriminate|]. intros [H _]. destruct l; discriminate.
  - destruct (Ascii.eqb a c) eqn:E.
    + apply Ascii.eqb_eq in E; subst a. split.
      * intros [= <- <-]. auto.
      * intros [H Hc]. destruct l as [|b l']; simpl in *.
        -- now injection H as ->.
        -- injection H as <- _. now rewrite Ascii.eqb_refl in Hc.
    + split.
      * destruct (split_once c r) as [[l0 t0]|] eqn:S; [|discriminate].
        intros [= <- <-]. destruct (proj1 (IH l0) eq_refl) as [-> Hc].
        simpl. now rewrite E.
      * intros [H Hc]. destruct l as [|b l']; simpl in *.
        -- injection H as -> _. now rewrite Ascii.eqb_refl in E.
        -- injection H as <- ->. rewrite E in Hc.
           assert (S : split_once c (l' ++ String c t) = Some (l', t))
             by (apply IH; auto).
           now rewrite S.
Qed.

(** ** The Format-A loop, one line at a time *)

Lemma read_lspatches_loop_cons patches line rest filename :
  read_lspatches_loop patches (line :: rest) filename
  = match split_once ";" (strip line) with
    | None => read_lspatches_loop patches rest filename
    | Some (num, desc) =>
        match int num with
        | Some patch_id =>
            read_lspatches_loop
              (dict_set patch_id (mk_patch (Some desc) "") patches) rest filename
        | None =>
            print ("error: invalid patch ID: '" ++ num ++ "' in " ++ filename) ;;
            sys_exit 1
        end
    end.
Proof.
  simpl. destruct (split_once ";" (strip line)) as [[num desc]|] eqn:S.
  - assert (C : contains ";" (strip line) = true).
    { destruct (contains ";" (strip line)) eqn:C; [reflexivity|].
      apply contains_split_once in C. congruence. }
    rewrite C. destruct (strip line); [discriminate S|reflexivity].
  - apply contains_split_once in S. rewrite S. simpl.
    now rewrite orb_true_r.
Qed.

(** Without a malformed line the loop prints nothing and returns the
    dict with every record written in order. *)
Lemma read_lspatches_loop_wellformed lines filename : forall patches w,
  Forall (fun l => malformed l = false) lines ->
  read_lspatches_loop patches lines filename w
  = (w, Ok (store_all (lspatches_records lines) patches)).
Proof.
  induction lines as [|line rest IH]; intros patches w Hall; [reflexivity|].
  inversion Hall as [|? ? Hl Hrest]; subst.
  rewrite read_lspatches_loop_cons. simpl.
  unfold malformed in Hl. unfold lspatches_record.
  destruct (split_once ";" (strip line)) as [[num desc]|]; [|now apply IH].
  destruct (int num) as [n|]; [|discriminate]. now rewrite IH.
Qed.

(** The loop stops at the first malformed line. *)
Lemma read_lspatches_loop_malformed before line after filename patches w :
  Forall (fun l => malformed l = false) before ->
  malformed line = true ->
  exists num desc,
    split_once ";" (strip line) = Some (num, desc) /\ int num = None /\
    read_lspatches_loop patches (before ++ line :: after) filename w
    = (with_stdout (stdout w ++ ["error: invalid patch ID: '" ++ num ++ "' in " ++ filename]) w,
       SysExit 1).
Proof.
  intros Hb Hm. unfold malformed in Hm.
  destruct (split_once ";" (strip line)) as [[num desc]|] eqn:S; [|discriminate].
  destruct (int num) eqn:I; [discriminate|].
  exists num, desc. split; [reflexivity|]. split; [exact I|].
  revert patches. induction before as [|l r IH]; intros patches; simpl app.
  - rewrite read_lspatches_loop_cons, S, I. reflexivity.
  - inversion Hb as [|? ? Hl Hr]; subst.
    rewrite read_lspatches_loop_cons. unfold malformed in Hl.
    destruct (split_once ";" (strip l)) as [[n0 d0]|]; [|now apply IH].
    destruct (int n0); [now apply IH|discriminate].
Qed.

Lemma first_malformed lines :
  Exists (fun l => malformed l = true) lines ->
  exists before line after,
    lines = (before ++ line :: after)%list /\
    Forall (fun l => malformed l = false) before /\ malformed line = true.
Proof.
  induction lines as [|l r IH]; intros H; [inversion H|].
  destruct (malformed l) eqn:E.
  - exists [], l, r. repeat split; auto.
  - inversion H as [? ? Hl|? ? Hr]; subst; [congruence|].
    destruct (IH Hr) as (b & x & a & -> & Hb & Hx).
    exists (l :: b), x, a. repeat split; auto.
Qed.

Lemma read_lspatches_loop_ok lines filename patches w w' d :
  read_lspatches_loop patches lines filename w = (w', Ok d) ->
  Forall (fun l => malformed l = false) lines.
Proof.
  intros H. apply Forall_forall. intros l Hin.
  destruct (malformed l) eqn:E; [exfalso|reflexivity].
  assert (Hex : Exists (fun l => malformed l = true) lines)
    by (apply Exists_exists; eauto).
  destruct (first_malformed _ Hex) as (b & x & a & -> & Hb & Hx).
  destruct (read_lspatches_loop_malformed b x a filename patches w Hb Hx)
    as (num & desc & _ & _ & Hrun).
  congruence.
Qed.

Lemma Forall_dict_set {V} (P : Z * V -> Prop) k v (d : dict V) :
  Forall P d -> P (k, v) -> Forall P (dict_set k v d).
Proof.
  intros Hd Hv. induction d as [|[k0 v0] r IH]; simpl.
  - now constructor.
  - inversion Hd; subst. destruct (k =? k0); constructor; auto.
Qed.

Lemma Forall_store_all (P : Z * patch -> Prop) recs : forall d,
  Forall P d -> Forall P recs -> Forall P (store_all recs d).
Proof.
  induction recs as [|[n p] r IH]; simpl; intros d Hd Hr; [exact Hd|].
  inversion Hr; subst. apply IH; [|assumption]. now apply Forall_dict_set.
Qed.

Lemma lspatches_records_no_extra lines :
  Forall (fun kv => extra_lines (snd kv) = "") (lspatches_records lines).
Proof.
  induction lines as [|l r IH]; simpl; [constructor|].
  unfold lspatches_record.
  destruct (split_once ";" (strip l)) as [[num desc]|]; [|exact IH].
  destruct (int num); [constructor; auto|exact IH].
Qed.

Lemma read_lspatches_ok lines filename w w' d :
  read_lspatches lines filename w = (w', Ok d) ->
  w' = w /\ d = store_all (lspatches_records lines) [].
Proof.
  intros H. pose proof (read_lspatches_loop_ok _ _ _ _ _ _ H) as Hall.
  unfold read_lspatches in H.
  rewrite read_lspatches_loop_wellformed in H by exact Hall.
  injection H as <- <-. auto.
Qed.

Lemma lspatches_records_app l1 l2 :
  lspatches_records (l1 ++ l2) = (lspatches_records l1 ++ lspatches_records l2)%list.
Proof.
  induction l1 as [|l r IH]; [reflexivity|].
  simpl. destruct (lspatches_record l); simpl; now rewrite IH.
Qed.

Lemma lspatches_record_skipped line :
  strip line = EmptyString \/ contains ";" (strip line) = false ->
  lspatches_record line = None.
Proof.
  intros H. unfold lspatches_record.
  assert (S : split_once ";" (strip line) = None).
  { destruct H as [H|H]; [now rewrite H|now apply contains_split_once]. }
  now rewrite S.
Qed.

Lemma lspatches_record_split line num desc n :
  strip line = (num ++ String ";" desc)%string ->
  contains ";" num = false -> int num = Some n ->
  lspatches_record line = Some (n, mk_patch (Some desc) "").
Proof.
  intros Hs Hc Hi. unfold lspatches_record.
  assert (S : split_once ";" (strip line) = Some (num, desc))
    by (apply split_once_spec; auto).
  now rewrite S, Hi.
Qed.

(** C6.  The Format-A decoder.  Line by line: a line that is empty after
    trimming or has no semicolon is skipped without error; any other line
    is split at the first semicolon of the trimmed line only, the left
    part goes through [int] and, when it is an integer, the whole
    remainder (further semicolons included) is stored as the description
    under that identifier.  On the whole input: when no line is
    malformed the decoder prints nothing and returns the Patch Set
    obtained by writing, in the order of the lines, one record for each
    line that is not skipped, so that a skipped line adds nothing, the
    record of a line is found under its identifier unless a later line
    has the same identifier, and every key of the result is the
    identifier of a line; every record of a returned Patch Set has empty
    [extra_lines]. *)
Theorem read_lspatches_line_by_line :
  forall (patches : patch_set) (line : string) (rest : list string)
         (filename : string),
    (strip line = "" \/ contains ";" (strip line) = false ->
     read_lspatches_loop patches (line :: rest) filename
     = read_lspatches_loop patches rest filename)
    /\ (forall num desc,
          strip line = (num ++ String ";" desc)%string ->
          contains ";" num = false ->
          read_lspatches_loop patches (line :: rest) filename
          = match int num with
            | Some patch_id =>
                read_lspatches_loop
                  (dict_set patch_id (mk_patch (Some desc) "") patches)
                  rest filename
            | None =>
                print ("error: invalid patch ID: '" ++ num ++ "' in " ++ filename) ;;
                sys_exit 1
            end)
    /\ (forall lines w w' d,
          read_lspatches lines filename w = (w', Ok d) ->
          w' = w /\ Forall (fun kv => extra_lines (snd kv) = "") d)
    /\ (forall lines w,
          Forall (fun l => malformed l = false) lines ->
          read_lspatches lines filename w
          = (w, Ok (store_all (lspatches_records lines) []))
          /\ forall k, In k (keys (store_all (lspatches_records lines) []))
                       <-> exists l p, In l lines /\ lspatches_record l = Some (k, p))
    /\ (strip line = "" \/ contains ";" (strip line) = false ->
        lspatches_records (line :: rest) = lspatches_records rest)
    /\ (forall num desc n,
          strip line = (num ++ String ";" desc)%string ->
          contains ";" num = false -> int num = Some n ->
          lspatches_records (line :: rest)
          = (n, mk_patch (Some desc) "") :: lspatches_records rest)
    /\ (forall before num desc n w,
          Forall (fun l => malformed l = false) (before ++ line :: rest) ->
          strip line = (num ++ String ";" desc)%string ->
          contains ";" num = false -> int num = Some n ->
          ~ In n (keys (lspatches_records rest)) ->
          exists d,
            read_lspatches (before ++ line :: rest) filename w = (w, Ok d)
            /\ dict_get n d = Some (mk_patch (Some desc) "")).
Proof.
  intros patches line rest filename.
  split; [|split; [|split; [|split; [|split; [|split]]]]].
  - intros H. rewrite read_lspatches_loop_cons.
    assert (S : split_once ";" (strip line) = None).
    { destruct H as [H|H]; [now rewrite H|now apply contains_split_once]. }
    now rewrite S.
  - intros num desc Hs Hc. rewrite read_lspatches_loop_cons.
    assert (S : split_once ";" (strip line) = Some (num, desc))
      by (apply split_once_spec; auto).
    now rewrite S.
  - intros lines w w' d H. apply read_lspatches_ok in H. destruct H as [-> ->].
    split; [reflexivity|].
    apply Forall_store_all; [constructor|apply lspatches_records_no_extra].
  - intros lines w Hall. split.
    + now apply read_lspatches_loop_wellformed.
    + intros k. rewrite keys_store_all. simpl. split.
      * intros [Hin|[]]. unfold keys in Hin. apply in_map_iff in Hin.
        destruct Hin as ([k' p] & Hk & Hin). simpl in Hk. subst k'.
        clear Hall. induction lines as [|l r IH]; [destruct Hin|].
        simpl in Hin. destruct (lspatches_record l) as [rec|] eqn:E.
        -- destruct Hin as [->|Hin].
           ++ exists l, p. split; [now left|exact E].
           ++ destruct (IH Hin) as (l0 & p0 & Hl0 & E0).
              exists l0, p0. split; [now right|exact E0].
        -- destruct (IH Hin) as (l0 & p0 & Hl0 & E0).
           exists l0, p0. split; [now right|exact E0].
      * intros (l & p & Hin & E). left. unfold keys. apply in_map_iff.
        exists (k, p). split; [reflexivity|].
        clear Hall. induction lines as [|l0 r IH]; [destruct Hin|].
        simpl. destruct Hin as [->|Hin].
        -- rewrite E. now left.
        -- destruct (lspatches_record l0); [right|]; now apply IH.
  - intros H. simpl. now rewrite (lspatches_record_skipped line H).
  - intros num desc n Hs Hc Hi. simpl.
    now rewrite (lspatches_record_split line num desc n Hs Hc Hi).
  - intros before num desc n w Hall Hs Hc Hi Hlast.
    exists (store_all (lspatches_records (before ++ line :: rest)) []). split.
    + now apply read_lspatches_loop_wellformed.
    + rewrite lspatches_records_app. simpl.
      rewrite (lspatches_record_split line num desc n Hs Hc Hi).
      now apply dict_get_store_all_last.
Qed.

Lemma read_lspatches_line_by_line_witness :
  read_lspatches_loop [] ["   "; "1;Desc A"] "f"
  = read_lspatches_loop [] ["1;Desc A"] "f"
  /\ read_lspatches_loop [] [" 7;a;b "] "f"
     = read_lspatches_loop [(7, mk_patch (Some "a;b") "")] [] "f"
  /\ Forall (fun kv => extra_lines (snd kv) = "")
            [(1, mk_patch (Some "Desc A") ""); (2, mk_patch (Some "Desc B") "")]
  /\ read_lspatches ["7;x"; "no semicolon"; "8;y"; " 7 ; z;z "] "f" sample_world
     = (sample_world,
        Ok [(7, mk_patch (Some " z;z") ""); (8, mk_patch (Some "y") "")])
  /\ lspatches_records ["   "; "1;Desc A"] = lspatches_records ["1;Desc A"]
  /\ lspatches_records [" 7;a;b "; "8;y"]
     = (7, mk_patch (Some "a;b") "") :: lspatches_records ["8;y"]
  /\ exists d,
       read_lspatches (["7;x"; "8;y"] ++ [" 7 ; z;z "; "9;w"]) "f" sample_world
       = (sample_world, Ok d)
       /\ dict_get 7 d = Some (mk_patch (Some " z;z") "").
Proof.
  split; [|split; [|split; [|split; [|split; [|split]]]]].
  - apply (proj1 (read_lspatches_line_by_line [] "   " ["1;Desc A"] "f")).
    left. reflexivity.
  - apply (proj1 (proj2 (read_lspatches_line_by_line [] " 7;a;b " [] "f"))
             "7" "a;b"); reflexivity.
  - apply (proj1 (proj2 (proj2 (read_lspatches_line_by_line [] "" [] "f")))
             ["1;Desc A"; "2;Desc B"] sample_world sample_world).
    reflexivity.
  - apply (proj1 (proj2 (proj2 (proj2 (read_lspatches_line_by_line [] "" [] "f"))))
             ["7;x"; "no semicolon"; "8;y"; " 7 ; z;z "] sample_world).
    repeat constructor.
  - apply (proj1 (proj2 (proj2 (proj2 (proj2
             (read_lspatches_line_by_line [] "   " ["1;Desc A"] "f")))))).
    left. reflexivity.
  - apply (proj1 (proj2 (proj2 (proj2 (proj2 (proj2
             (read_lspatches_line_by_line [] " 7;a;b " ["8;y"] "f"))))))
             "7" "a;b" 7); reflexivity.
  - apply (proj2 (proj2 (proj2 (proj2 (proj2 (proj2
             (read_lspatches_line_by_line [] " 7 ; z;z " ["9;w"] "f"))))))
             ["7;x"; "8;y"] "7 " " z;z" 7 sample_world).
    + repeat constructor.
    + reflexivity.
    + reflexivity.
    + reflexivity.
    + simpl. intros [H|[]]. discriminate.
Defined.

(** ** How [sys.exit] and exceptions travel through the callers *)

Lemma bind_ok {A B} (m : M A) (f : A -> M B) w w' a :
  m w = (w', Ok a) -> bind m f w = f a w'.
Proof. unfold bind. now intros ->. Qed.

Lemma bind_exit {A B} (m : M A) (f : A -> M B) w w' c :
  m w = (w', SysExit c) -> bind m f w = (w', SysExit c).
Proof. unfold bind. now intros ->. Qed.

Lemma bind_raised {A B} (m : M A) (f : A -> M B) w w' e :
  m w = (w', Raised e) -> bind m f w = (w', Raised e).
Proof. unfold bind. now intros ->. Qed.

Lemma read_patches_lspatches filename text w :
  files w filename = Some text ->
  splitlines text <> [] ->
  is_lsinventory (splitlines text) = false ->
  read_patches filename w
  = read_lspatches (splitlines text) filename
      (with_stdout (stdout w ++ ["Reading patches from 'opatch lspatches' "
                                   ++ filename ++ "..."]) w).
Proof.
  intros Hf Hne Hfmt. unfold read_patches, bind, read_file. rewrite Hf, Hfmt.
  destruct (splitlines text); [congruence|reflexivity].
Qed.

Lemma prepare_patches_first_exit short first second ru w w' c :
  read_opatch_source first w = (w', SysExit c) ->
  prepare_patches short first second ru w = (w', SysExit c).
Proof. intros H. unfold prepare_patches. now apply bind_exit. Qed.

Lemma read_opatch_source_file_exit src w w' c :
  source src = "file" ->
  read_patches (path src) w = (w', SysExit c) ->
  read_opatch_source src w = (w', SysExit c).
Proof.
  intros Hs H. unfold read_opatch_source. rewrite Hs. simpl.
  now apply bind_exit.
Qed.

(** C7.  A Format-A input with a line whose text left of the first
    semicolon [int] rejects is fatal.  The decoder prints one message that
    names the offending token (of the first such line) and the source name
    and exits with status 1; it returns no Patch Set.  When the input is
    the file of the first source, the whole run ends there with status 1,
    after the reading notice and that message. *)
Theorem read_lspatches_malformed_is_fatal :
  forall (lines : list string) (filename : string),
    Exists (fun l => malformed l = true) lines ->
    exists before line after num desc,
      lines = (before ++ line :: after)%list
      /\ Forall (fun l => malformed l = false) before
      /\ split_once ";" (strip line) = Some (num, desc)
      /\ int num = None
      /\ (forall w,
            read_lspatches lines filename w
            = (with_stdout
                 (stdout w ++ ["error: invalid patch ID: '" ++ num ++ "' in " ++ filename]) w,
               SysExit 1))
      /\ (forall w text short first second ru,
            source first = "file" -> path first = filename ->
            files w filename = Some text -> splitlines text = lines ->
            is_lsinventory lines = false ->
            prepare_patches short first second ru w
            = (with_stdout
                 (stdout w ++ ["Reading patches from 'opatch lspatches' "
                                 ++ filename ++ "...";
                               "error: invalid patch ID: '" ++ num ++ "' in " ++ filename]) w,
               SysExit 1)).
Proof.
  intros lines filename Hex.
  destruct (first_malformed _ Hex) as (before & line & after & -> & Hb & Hl).
  assert (Hparts : exists num desc,
            split_once ";" (strip line) = Some (num, desc) /\ int num = None).
  { unfold malformed in Hl.
    destruct (split_once ";" (strip line)) as [[num desc]|]; [|discriminate].
    destruct (int num) eqn:Hi; [discriminate|]. now exists num, desc. }
  destruct Hparts as (num & desc & Hs & Hi).
  assert (Hrun : forall w,
            read_lspatches (before ++ line :: after) filename w
            = (with_stdout
                 (stdout w ++ ["error: invalid patch ID: '" ++ num ++ "' in " ++ filename]) w,
               SysExit 1)).
  { intros w.
    destruct (read_lspatches_loop_malformed before line after filename [] w Hb Hl)
      as (num' & desc' & Hs' & _ & Hrun).
    rewrite Hs in Hs'. injection Hs' as <- <-. exact Hrun. }
  exists before, line, after, num, desc.
  split; [reflexivity|]. split; [exact Hb|]. split; [exact Hs|].
  split; [exact Hi|]. split; [exact Hrun|].
  intros w text short first second ru Hsrc Hpath Hfile Hlines Hfmt.
  apply prepare_patches_first_exit, read_opatch_source_file_exit; [exact Hsrc|].
  rewrite Hpath.
  rewrite (read_patches_lspatches filename text w Hfile); rewrite ?Hlines; auto.
  - rewrite Hrun. simpl. now rewrite <- app_assoc.
  - now destruct before.
Qed.

Lemma read_lspatches_malformed_is_fatal_witness :
  exists before line after num desc,
    ["1;Desc A"; "abc;Bad ID"] = (before ++ line :: after)%list
    /\ Forall (fun l => malformed l = false) before
    /\ split_once ";" (strip line) = Some (num, desc)
    /\ int num = None
    /\ (forall w,
          read_lspatches ["1;Desc A"; "abc;Bad ID"] "bad.txt" w
          = (with_stdout
               (stdout w ++ ["error: invalid patch ID: '" ++ num ++ "' in " ++ "bad.txt"]) w,
             SysExit 1))
    /\ (forall w text short first second ru,
          source first = "file" -> path first = "bad.txt" ->
          files w "bad.txt" = Some text ->
          splitlines text = ["1;Desc A"; "abc;Bad ID"] ->
          is_lsinventory ["1;Desc A"; "abc;Bad ID"] = false ->
          prepare_patches short first second ru w
          = (with_stdout
               (stdout w ++ ["Reading patches from 'opatch lspatches' "
                               ++ "bad.txt" ++ "...";
                             "error: invalid patch ID: '" ++ num ++ "' in " ++ "bad.txt"]) w,
             SysExit 1)).
Proof.
  apply (read_lspatches_malformed_is_fatal ["1;Desc A"; "abc;Bad ID"] "bad.txt").
  apply Exists_cons_tl, Exists_cons_hd. reflexivity.
Defined.

(** C9.  A Patch Set produced by either decoder has each identifier as a
    key once, its keys are the identifiers of the records of the text, and
    when an identifier occurs in several records the last one is the one
    stored: for Format-A the records are those of the lines, for Format-B
    those the decoder closes, in order. *)
Theorem decoders_unique_keys_last_write_wins :
  forall lines : list string,
    (forall filename w w' d,
        read_lspatches lines filename w = (w', Ok d) ->
        NoDup (keys d)
        /\ (forall n, In n (keys d) <-> In n (keys (lspatches_records lines)))
        /\ (forall before n p after,
              lspatches_records lines = (before ++ (n, p) :: after)%list ->
              ~ In n (keys after) ->
              dict_get n d = Some p))
    /\ NoDup (keys (read_lsinventory lines))
    /\ (forall n, In n (keys (read_lsinventory lines))
                  <-> In n (keys (lsinventory_records lines)))
    /\ (forall before n p after,
          lsinventory_records lines = (before ++ (n, p) :: after)%list ->
          ~ In n (keys after) ->
          dict_get n (read_lsinventory lines) = Some p).
Proof.
  intros lines. split; [|split; [|split]].
  - intros filename w w' d H. apply read_lspatches_ok in H. destruct H as [_ ->].
    split; [|split].
    + apply NoDup_keys_store_all. constructor.
    + intros n. rewrite keys_store_all. simpl. tauto.
    + intros before n p after Hrecs Hlast. rewrite Hrecs.
      now apply dict_get_store_all_last.
  - rewrite read_lsinventory_records. apply NoDup_keys_store_all. constructor.
  - intros n. rewrite read_lsinventory_records, keys_store_all. simpl. tauto.
  - intros before n p after Hrecs Hlast.
    rewrite read_lsinventory_records, Hrecs.
    now apply dict_get_store_all_last.
Qed.

Lemma decoders_unique_keys_last_write_wins_witness :
  (NoDup (keys [(5, mk_patch (Some "new") ""); (6, mk_patch (Some "x") "")])
   /\ dict_get 5 [(5, mk_patch (Some "new") ""); (6, mk_patch (Some "x") "")]
      = Some (mk_patch (Some "new") ""))
  /\ dict_get 5 (read_lsinventory
                   ["Patch 5 :"; desc_line "old"; "Patch 6 :"; "Patch 5 :"; desc_line "new"])
     = Some (mk_patch (Some "new") "").
Proof.
  split.
  - pose proof (proj1 (decoders_unique_keys_last_write_wins ["5;old"; "6;x"; "5;new"])
                  "f" sample_world sample_world
                  [(5, mk_patch (Some "new") ""); (6, mk_patch (Some "x") "")]
                  eq_refl) as [Hnd [_ Hlast]].
    split; [exact Hnd|].
    apply (Hlast [(5, mk_patch (Some "old") ""); (6, mk_patch (Some "x") "")]
                 5 (mk_patch (Some "new") "") []); [reflexivity|].
    intros [].
  - apply (proj2 (proj2 (proj2 (decoders_unique_keys_last_write_wins
              ["Patch 5 :"; desc_line "old"; "Patch 6 :"; "Patch 5 :"; desc_line "new"])))
             [(5, mk_patch (Some "old") ""); (6, mk_patch None "")]
             5 (mk_patch (Some "new") "") []); [reflexivity|].
    intros [].
Defined.

(** ** Capturing extra lines in the Format-B loop *)

Lemma lsinventory_step_header st line digits :
  Re.match_patch_header line = Some digits ->
  lsinventory_step st line
  = mk_inv_state (store_current LF st) (Some (digits_value digits)) None [] false.
Proof. intros H. unfold lsinventory_step. now rewrite H. Qed.

Lemma lsinventory_step_other st line :
  is_other_line line = true ->
  lsinventory_step st line
  = if is_capturing_extra st && truthy_id (current_id st) then
      if negb (is_blank line)
      then mk_inv_state (patches st) (current_id st) (current_desc st)
                        (extra_buf st ++ [line]) true
      else mk_inv_state (patches st) (current_id st) (current_desc st)
                        (extra_buf st) false
    else st.
Proof.
  unfold is_other_line, lsinventory_step, is_blank.
  destruct (Re.match_patch_header line); [discriminate|].
  destruct (Re.search_desc line); [discriminate|reflexivity].
Qed.

Lemma truthy_id_nonzero x :
  truthy_id x = true <-> exists id, x = Some id /\ id <> 0.
Proof.
  destruct x as [id|]; simpl.
  - rewrite negb_true_iff, Z.eqb_neq. split.
    + intros H. now exists id.
    + intros (i & [= ->] & H). exact H.
  - split; [discriminate|]. intros (i & H & _). discriminate.
Qed.

Lemma store_current_open sep st id :
  current_id st = Some id -> id <> 0 ->
  store_current sep st
  = dict_set id (mk_patch (current_desc st) (join sep (extra_buf st))) (patches st).
Proof.
  intros Hid Hnz. unfold store_current. rewrite Hid. simpl.
  apply Z.eqb_neq in Hnz. now rewrite Hnz.
Qed.

Lemma capture_inv_step st line : capture_inv st -> capture_inv (lsinventory_step st line).
Proof.
  unfold capture_inv, lsinventory_step. intros Hinv.
  destruct (Re.match_patch_header line); simpl; [discriminate|].
  destruct (Re.search_desc line), (truthy_id (current_id st)) eqn:T; simpl;
    rewrite ?T; auto;
    rewrite ?andb_true_r, ?andb_false_r;
    destruct (is_capturing_extra st) eqn:C; simpl; rewrite ?T; auto;
    destruct (is_empty (strip line)); simpl; rewrite ?T, ?C; auto; discriminate.
Qed.

Lemma capture_inv_loop lines : forall st,
  capture_inv st -> capture_inv (lsinventory_loop st lines).
Proof.
  induction lines as [|l r IH]; intros st H; [exact H|].
  rewrite lsinventory_loop_cons. apply IH. now apply capture_inv_step.
Qed.

Lemma capture_inv_reachable lines : capture_inv (lsinventory_loop inv_init lines).
Proof. apply capture_inv_loop. unfold capture_inv. simpl. discriminate. Qed.

(** Lines that are neither headers nor descriptions leave a state that is
    not capturing as it is. *)
Lemma lsinventory_loop_idle mid : forall p i d buf,
  Forall (fun l => is_other_line l = true) mid ->
  lsinventory_loop (mk_inv_state p i d buf false) mid = mk_inv_state p i d buf false.
Proof.
  induction mid as [|l r IH]; intros p i d buf Hall; [reflexivity|].
  inversion Hall; subst.
  rewrite lsinventory_loop_cons, lsinventory_step_other by assumption.
  simpl. now apply IH.
Qed.

(** A capture takes the lines before the first blank one, as they are. *)
Lemma lsinventory_loop_capture mid : forall p i d buf,
  truthy_id i = true ->
  Forall (fun l => is_other_line l = true) mid ->
  lsinventory_loop (mk_inv_state p i d buf true) mid
  = mk_inv_state p i d (buf ++ captured mid)
                 (forallb (fun l => negb (is_blank l)) mid).
Proof.
  induction mid as [|l r IH]; intros p i d buf Hi Hall.
  - simpl. now rewrite app_nil_r.
  - inversion Hall; subst.
    rewrite lsinventory_loop_cons, lsinventory_step_other by assumption.
    simpl. rewrite Hi. simpl. destruct (is_blank l); simpl.
    + rewrite lsinventory_loop_idle by assumption. now rewrite app_nil_r.
    + rewrite IH by assumption. now rewrite <- app_assoc.
Qed.

Lemma lsinventory_header_closes pre h digits id :
  let st := lsinventory_loop inv_init pre in
  Re.match_patch_header h = Some digits ->
  current_id st = Some id -> id <> 0 ->
  lsinventory_loop inv_init (pre ++ [h])
  = mk_inv_state
      (dict_set id (mk_patch (current_desc st) (join LF (extra_buf st)))
                (patches st))
      (Some (digits_value digits)) None [] false.
Proof.
  intros st Hh Hid Hnz. rewrite lsinventory_loop_app. fold st. simpl.
  rewrite (lsinventory_step_header st h digits Hh).
  now rewrite (store_current_open LF st id Hid Hnz).
Qed.

Lemma lsinventory_eof_closes pre id :
  let st := lsinventory_loop inv_init pre in
  current_id st = Some id -> id <> 0 ->
  read_lsinventory pre
  = dict_set id (mk_patch (current_desc st) (join "" (extra_buf st))) (patches st).
Proof.
  intros st Hid Hnz. unfold read_lsinventory, lsinventory_finish. fold st.
  apply (store_current_open "" st id Hid Hnz).
Qed.

Lemma string_append_nil_r (s : string) : (s ++ "")%string = s.
Proof. induction s as [|c r IH]; simpl; [reflexivity|now rewrite IH]. Qed.

Lemma join_empty_separator (l : list string) :
  join "" l = fold_right String.append "" l.
Proof.
  unfold join. induction l as [|x r IH]; [reflexivity|].
  simpl. destruct r as [|y r'].
  - simpl. now rewrite string_append_nil_r.
  - now rewrite <- IH.
Qed.

Lemma rstrip_by_empty f s :
  rstrip_by f s = EmptyString -> forall c r, s = String c r -> f c = true.
Proof.
  destruct s as [|a t]; [discriminate|]. simpl.
  intros H c r [= <- <-].
  destruct (rstrip_by f t); [|discriminate]. now destruct (f a).
Qed.

Lemma blank_line_first_char line c r :
  is_blank line = true -> line = String c r -> isspace c = true.
Proof.
  unfold is_blank, strip. intros H ->. simpl in H.
  destruct (isspace c) eqn:E; [reflexivity|]. exfalso.
  assert (Hs : rstrip_by isspace (String c r) = EmptyString)
    by (destruct (rstrip_by isspace (String c r)); [reflexivity|discriminate]).
  pose proof (rstrip_by_empty isspace (String c r) Hs c r eq_refl). congruence.
Qed.

Lemma blank_line_tail c r : is_blank (String c r) = true -> is_blank r = true.
Proof.
  intros H. pose proof (blank_line_first_char _ c r H eq_refl) as Hc.
  unfold is_blank, strip in *. simpl in H. now rewrite Hc in H.
Qed.

Lemma after_literal_patch_blank line :
  is_blank line = true -> after_literal "Patch" line = None.
Proof.
  intros H. destruct line as [|c r]; [reflexivity|].
  pose proof (blank_line_first_char _ c r H eq_refl) as Hc.
  cbn [after_literal].
  destruct (Ascii.eqb "P" c) eqn:E; [|reflexivity].
  apply Ascii.eqb_eq in E. subst c. discriminate.
Qed.

(** A blank line is neither a header line nor a description line. *)
Lemma blank_line_is_other line : is_blank line = true -> is_other_line line = true.
Proof.
  intros H. unfold is_other_line.
  assert (Hh : Re.match_patch_header line = None)
    by (unfold Re.match_patch_header; now rewrite (after_literal_patch_blank line H)).
  rewrite Hh.
  assert (Hd : Re.search_desc line = None).
  { induction line as [|c r IH].
    - reflexivity.
    - cbn [Re.search_desc]. unfold Re.match_desc_at.
      rewrite (after_literal_patch_blank _ H).
      apply IH; [now apply (blank_line_tail c)|].
      unfold Re.match_patch_header.
      now rewrite (after_literal_patch_blank r (blank_line_tail c r H)). }
  now rewrite Hd.
Qed.

Lemma lsinventory_step_description st line text id :
  Re.match_patch_header line = None ->
  Re.search_desc line = Some text ->
  current_id st = Some id -> id <> 0 ->
  lsinventory_step st line
  = mk_inv_state (patches st) (Some id) (Some text) (extra_buf st) true.
Proof.
  intros Hh Hd Hid Hnz. unfold lsinventory_step. rewrite Hh, Hd, Hid.
  simpl. apply Z.eqb_neq in Hnz. now rewrite Hnz.
Qed.

(** C4, as amended.  In the Format-B decoder, after any input read so far:
    while capturing, the record is open with an identifier that is not 0,
    and of the lines that follow and are neither header nor description
    lines, those before the first blank one are appended to the buffer
    untrimmed and none after it; the record stays open with the same
    identifier and description, and a later header line or the end of the
    input stores it with exactly those lines.  While not capturing (before
    a description line, or after a blank line), lines that are neither
    header nor description lines change nothing.  A description line met
    while a record with an identifier other than 0 is open is not
    appended: it replaces the description and starts a capture, also after
    a blank line.  A header line closes the open record whenever its
    identifier is not 0: it stores the record with the buffer joined by
    line feeds and starts a fresh record; the end of the input stores such
    a record too.  A header line met while no record is open, or while the
    open record has the identifier 0, stores nothing and starts a fresh
    record.  A blank line is itself neither a header line nor a
    description line. *)
Theorem lsinventory_capture_and_close :
  forall pre : list string,
    let st := lsinventory_loop inv_init pre in
    (forall mid,
        is_capturing_extra st = true ->
        Forall (fun l => is_other_line l = true) mid ->
        exists id,
          current_id st = Some id /\ id <> 0
          /\ lsinventory_loop inv_init (pre ++ mid)
             = mk_inv_state (patches st) (Some id) (current_desc st)
                            (extra_buf st ++ captured mid)
                            (forallb (fun l => negb (is_blank l)) mid)
          /\ (forall h digits,
                Re.match_patch_header h = Some digits ->
                lsinventory_loop inv_init (pre ++ mid ++ [h])
                = mk_inv_state
                    (dict_set id
                       (mk_patch (current_desc st)
                                 (join LF (extra_buf st ++ captured mid)))
                       (patches st))
                    (Some (digits_value digits)) None [] false)
          /\ read_lsinventory (pre ++ mid)
             = dict_set id
                 (mk_patch (current_desc st)
                           (join "" (extra_buf st ++ captured mid)))
                 (patches st))
    /\ (forall h digits id,
          Re.match_patch_header h = Some digits ->
          current_id st = Some id -> id <> 0 ->
          lsinventory_loop inv_init (pre ++ [h])
          = mk_inv_state
              (dict_set id (mk_patch (current_desc st) (join LF (extra_buf st)))
                        (patches st))
              (Some (digits_value digits)) None [] false
          /\ dict_get id (patches (lsinventory_loop inv_init (pre ++ [h])))
             = Some (mk_patch (current_desc st) (join LF (extra_buf st))))
    /\ (forall mid,
          is_capturing_extra st = false ->
          Forall (fun l => is_other_line l = true) mid ->
          lsinventory_loop inv_init (pre ++ mid) = st)
    /\ (forall line text id,
          Re.match_patch_header line = None ->
          Re.search_desc line = Some text ->
          current_id st = Some id -> id <> 0 ->
          lsinventory_loop inv_init (pre ++ [line])
          = mk_inv_state (patches st) (Some id) (Some text) (extra_buf st) true)
    /\ (forall id,
          current_id st = Some id -> id <> 0 ->
          read_lsinventory pre
          = dict_set id (mk_patch (current_desc st) (join "" (extra_buf st)))
                     (patches st)
          /\ dict_get id (read_lsinventory pre)
             = Some (mk_patch (current_desc st) (join "" (extra_buf st))))
    /\ (forall h digits,
          Re.match_patch_header h = Some digits ->
          truthy_id (current_id st) = false ->
          lsinventory_loop inv_init (pre ++ [h])
          = mk_inv_state (patches st) (Some (digits_value digits)) None [] false)
    /\ (forall line, is_blank line = true -> is_other_line line = true).
Proof.
  intros pre st. split; [|split; [|split; [|split; [|split; [|split]]]]];
    [| | | | | |exact blank_line_is_other].
  - intros mid Hcap Hmid.
    pose proof (capture_inv_reachable pre Hcap) as Hopen. fold st in Hopen.
    destruct (proj1 (truthy_id_nonzero _) Hopen) as (id & Hid & Hnz).
    exists id. split; [exact Hid|]. split; [exact Hnz|].
    assert (Hrun : lsinventory_loop inv_init (pre ++ mid)
                   = mk_inv_state (patches st) (Some id) (current_desc st)
                                  (extra_buf st ++ captured mid)
                                  (forallb (fun l => negb (is_blank l)) mid)).
    { rewrite lsinventory_loop_app. fold st. rewrite <- Hid.
      rewrite <- (lsinventory_loop_capture mid (patches st) (current_id st)
                    (current_desc st) (extra_buf st) Hopen Hmid).
      f_equal. destruct st; simpl in *. now subst. }
    split; [exact Hrun|]. split.
    + intros h digits Hh. rewrite app_assoc.
      rewrite (lsinventory_header_closes (pre ++ mid) h digits id Hh);
        try rewrite Hrun; auto.
    + rewrite (lsinventory_eof_closes (pre ++ mid) id);
        try rewrite Hrun; auto.
  - intros h digits id Hh Hid Hnz.
    rewrite (lsinventory_header_closes pre h digits id Hh Hid Hnz). fold st.
    split; [reflexivity|]. simpl. apply dict_get_set_same.
  - intros mid Hcap Hmid. rewrite lsinventory_loop_app. fold st.
    clearbody st. destruct st as [p i d b c]. simpl in Hcap. subst c.
    now apply lsinventory_loop_idle.
  - intros line text id Hh Hd Hid Hnz. rewrite lsinventory_loop_app. fold st.
    simpl. now apply lsinventory_step_description.
  - intros id Hid Hnz. rewrite (lsinventory_eof_closes pre id Hid Hnz). fold st.
    split; [reflexivity|]. apply dict_get_set_same.
  - intros h digits Hh Hid. rewrite lsinventory_loop_app. fold st.
    simpl. unfold lsinventory_step. rewrite Hh. f_equal.
    unfold store_current. destruct (current_id st) as [id|]; [|reflexivity].
    now rewrite Hid.
Qed.

Lemma lsinventory_capture_and_close_witness :
  (exists id,
      Some 1 = Some id /\ id <> 0
      /\ lsinventory_loop inv_init
           ["Patch 1 :"; desc_line "A"; "  x "; "y"; ""; "z"]
         = mk_inv_state [] (Some id) (Some "A") ["  x "; "y"] false
      /\ (forall h digits,
            Re.match_patch_header h = Some digits ->
            lsinventory_loop inv_init
              ["Patch 1 :"; desc_line "A"; "  x "; "y"; ""; "z"; h]
            = mk_inv_state
                [(id, mk_patch (Some "A") ("  x " ++ LF ++ "y"))]
                (Some (digits_value digits)) None [] false)
      /\ read_lsinventory ["Patch 1 :"; desc_line "A"; "  x "; "y"; ""; "z"]
         = [(id, mk_patch (Some "A") "  x y")])
  /\ (lsinventory_loop inv_init ["Patch 1 :"; desc_line "A"; "a"; "Patch 2 :"]
      = mk_inv_state [(1, mk_patch (Some "A") "a")] (Some 2) None [] false
      /\ dict_get 1 (patches (lsinventory_loop inv_init
                                ["Patch 1 :"; desc_line "A"; "a"; "Patch 2 :"]))
         = Some (mk_patch (Some "A") "a"))
  /\ lsinventory_loop inv_init ["Patch 1 :"; desc_line "A"; "x"; ""; "y"; "z"]
     = lsinventory_loop inv_init ["Patch 1 :"; desc_line "A"; "x"; ""]
  /\ lsinventory_loop inv_init ["Patch 1 :"; desc_line "A"; "x"; ""; desc_line "B"]
     = mk_inv_state [] (Some 1) (Some "B") ["x"] true
  /\ (read_lsinventory ["Patch 1 :"; desc_line "A"; "x"; ""; desc_line "B"; "z"]
      = [(1, mk_patch (Some "B") "xz")]
      /\ dict_get 1 (read_lsinventory
                       ["Patch 1 :"; desc_line "A"; "x"; ""; desc_line "B"; "z"])
         = Some (mk_patch (Some "B") "xz"))
  /\ lsinventory_loop inv_init ["Patch 0 :"; desc_line "Zero"; "Patch 1 :"]
     = mk_inv_state [] (Some 1) None [] false
  /\ is_other_line "   " = true.
Proof.
  split; [|split; [|split; [|split; [|split; [|split]]]]].
  - apply (proj1 (lsinventory_capture_and_close ["Patch 1 :"; desc_line "A"])
             ["  x "; "y"; ""; "z"]); [reflexivity|].
    repeat constructor.
  - apply (proj1 (proj2 (lsinventory_capture_and_close
                           ["Patch 1 :"; desc_line "A"; "a"]))
             "Patch 2 :" "2" 1); [reflexivity|reflexivity|discriminate].
  - apply (proj1 (proj2 (proj2 (lsinventory_capture_and_close
                                  ["Patch 1 :"; desc_line "A"; "x"; ""])))
             ["y"; "z"]); [reflexivity|].
    repeat constructor.
  - apply (proj1 (proj2 (proj2 (proj2 (lsinventory_capture_and_close
                                         ["Patch 1 :"; desc_line "A"; "x"; ""]))))
             (desc_line "B") "B" 1); [reflexivity|reflexivity|reflexivity|discriminate].
  - apply (proj1 (proj2 (proj2 (proj2 (proj2 (lsinventory_capture_and_close
             ["Patch 1 :"; desc_line "A"; "x"; ""; desc_line "B"; "z"]))))) 1);
      [reflexivity|discriminate].
  - apply (proj1 (proj2 (proj2 (proj2 (proj2 (proj2 (lsinventory_capture_and_close
             ["Patch 0 :"; desc_line "Zero"])))))) "Patch 1 :" "1");
      reflexivity.
  - apply (proj2 (proj2 (proj2 (proj2 (proj2 (proj2
             (lsinventory_capture_and_close [])))))) "   ").
    reflexivity.
Defined.

(** C4 as it was stated fails three times.  A header line does not close
    an open record whose identifier is 0: after [Patch 0 :] and its
    description, the header [Patch 1 :] stores nothing and the output has
    no record 0.  A non-blank line met while capturing is not appended
    when it is a description line: it replaces the description.  And a
    blank line does not stop all further appending: a description line
    after it starts the capture again, so the line [z] below is appended
    after the blank line. *)
Lemma header_after_patch_zero_stores_nothing :
  (let st := lsinventory_loop inv_init ["Patch 0 :"; desc_line "Zero"] in
   current_id st = Some 0
   /\ Re.match_patch_header "Patch 1 :" = Some "1"
   /\ patches (lsinventory_step st "Patch 1 :") = []
   /\ read_lsinventory ["Patch 0 :"; desc_line "Zero"; "Patch 1 :"]
      = [(1, mk_patch None "")])
  /\ (let st := lsinventory_loop inv_init ["Patch 1 :"; desc_line "a"] in
      is_capturing_extra st = true
      /\ is_blank (desc_line "b") = false
      /\ extra_buf (lsinventory_step st (desc_line "b")) = []
      /\ read_lsinventory ["Patch 1 :"; desc_line "a"; desc_line "b"]
         = [(1, mk_patch (Some "b") "")])
  /\ (is_blank "" = true
      /\ read_lsinventory
           ["Patch 1 :"; desc_line "A"; "x"; ""; "y"; desc_line "B"; "z"]
         = [(1, mk_patch (Some "B") "xz")]).
Proof. repeat split. Qed.

(** C5.  For the record open after any input read so far (identifier not
    0): if a header line comes next, the record is stored with its extra
    lines joined by line feeds; if the input ends there instead, it is
    stored with the same lines concatenated with nothing between them. *)
Theorem lsinventory_join_asymmetry :
  forall (pre : list string) (h digits : string) (id : Z),
    let st := lsinventory_loop inv_init pre in
    Re.match_patch_header h = Some digits ->
    current_id st = Some id -> id <> 0 ->
    dict_get id (patches (lsinventory_loop inv_init (pre ++ [h])))
    = Some (mk_patch (current_desc st) (String.concat LF (extra_buf st)))
    /\ dict_get id (read_lsinventory pre)
       = Some (mk_patch (current_desc st)
                        (fold_right String.append "" (extra_buf st))).
Proof.
  intros pre h digits id st Hh Hid Hnz. split.
  - rewrite (lsinventory_header_closes pre h digits id Hh Hid Hnz). simpl.
    apply dict_get_set_same.
  - rewrite (lsinventory_eof_closes pre id Hid Hnz), dict_get_set_same.
    fold st. now rewrite join_empty_separator.
Qed.

Lemma lsinventory_join_asymmetry_witness :
  dict_get 1 (patches (lsinventory_loop inv_init
                         ["Patch 1 :"; desc_line "A"; "a"; "b"; "Patch 2 :"]))
  = Some (mk_patch (Some "A") ("a" ++ LF ++ "b"))
  /\ dict_get 1 (read_lsinventory ["Patch 1 :"; desc_line "A"; "a"; "b"])
     = Some (mk_patch (Some "A") "ab").
Proof.
  apply (lsinventory_join_asymmetry ["Patch 1 :"; desc_line "A"; "a"; "b"]
           "Patch 2 :" "2" 1); [reflexivity|reflexivity|discriminate].
Defined.

(** ** Scanning for the release update *)

Lemma dict_get_NoDup_In {V} k (v : V) (d : dict V) :
  NoDup (keys d) -> In (k, v) d -> dict_get k d = Some v.
Proof.
  induction d as [|[k0 v0] r IH]; simpl; intros Hnd Hin; [contradiction|].
  inversion Hnd as [|? ? Hnotin Hnd']; subst.
  destruct Hin as [[= -> ->]|Hin].
  - now rewrite Z.eqb_refl.
  - destruct (k =? k0) eqn:E; [|now apply IH].
    apply Z.eqb_eq in E; subst k0. exfalso. apply Hnotin.
    unfold keys. apply in_map_iff. now exists (k, v).
Qed.

Lemma startswith_marker_nonempty text :
  startswith RU_MARKER text = true -> is_empty text = false.
Proof. now destruct text. Qed.

Lemma first_release_update_truthy d text :
  first_release_update d = Some text -> truthy_str (Some text) = true.
Proof.
  induction d as [|[k p] r IH]; simpl; [discriminate|].
  destruct (description p) as [t|]; [|exact IH].
  destruct (startswith RU_MARKER t) eqn:E; [|exact IH].
  intros [= <-]. simpl. now rewrite (startswith_marker_nonempty _ E).
Qed.

(** On a dict whose records all have a description the scan completes,
    prints nothing and yields the first matching description. *)
Lemma find_release_update_suffix d w : forall suffix,
  NoDup (keys d) ->
  (forall kv, In kv suffix -> In kv d) ->
  all_described suffix ->
  find_release_update d (keys suffix) w = (w, Ok (first_release_update suffix)).
Proof.
  induction suffix as [|[k p] r IH]; intros Hnd Hsub Hdesc; [reflexivity|].
  simpl. rewrite (dict_get_NoDup_In k p d Hnd) by (apply Hsub; now left).
  inversion Hdesc as [|? ? Hp Hr]; subst. simpl in Hp.
  destruct (description p) as [text|]; [|congruence].
  destruct (startswith RU_MARKER text); [reflexivity|].
  apply IH; auto. intros kv Hin. apply Hsub. now right.
Qed.

Lemma find_release_update_described d w :
  NoDup (keys d) -> all_described d ->
  find_release_update d (keys d) w = (w, Ok (first_release_update d)).
Proof. intros Hnd Hdesc. now apply find_release_update_suffix. Qed.

Lemma check_release_update_scanned first second w r1 r2 :
  find_release_update first (keys first) w = (w, Ok r1) ->
  find_release_update second (keys second) w = (w, Ok r2) ->
  check_release_update first second w
  = (if truthy_str r1 && truthy_str r2 && negb (opt_string_eqb r1 r2) then
       print (LF ++ " ===> WARNING: Database Release Updates differ:") ;;
       print ("  - First source  => " ++ str_of_opt r1) ;;
       print ("  - Second source => " ++ str_of_opt r2)
     else if truthy_str r1 then print (LF ++ str_of_opt r1)
     else ret tt) w.
Proof.
  intros H1 H2. unfold check_release_update.
  rewrite (bind_ok _ _ _ _ _ H1). now rewrite (bind_ok _ _ _ _ _ H2).
Qed.

(** C2, as amended.  For two Patch Sets whose records all have a
    description: when both hold a release-update record and the two
    descriptions differ, a warning and exactly the two descriptions are
    printed; when the first holds one and the second holds none or the
    same one, the description of the first is printed and no warning;
    when neither holds one, nothing is printed. *)
Theorem check_release_update_cases :
  forall (first second : patch_set) (w : world),
    NoDup (keys first) -> NoDup (keys second) ->
    all_described first -> all_described second ->
    (forall d1 d2,
        first_release_update first = Some d1 ->
        first_release_update second = Some d2 ->
        d1 <> d2 ->
        check_release_update first second w
        = (with_stdout
             (stdout w ++ [LF ++ " ===> WARNING: Database Release Updates differ:";
                           "  - First source  => " ++ d1;
                           "  - Second source => " ++ d2]) w,
           Ok tt))
    /\ (forall d1,
          first_release_update first = Some d1 ->
          first_release_update second = None
          \/ first_release_update second = Some d1 ->
          check_release_update first second w
          = (with_stdout (stdout w ++ [LF ++ d1]) w, Ok tt))
    /\ (first_release_update first = None ->
        first_release_update second = None ->
        check_release_update first second w = (w, Ok tt)).
Proof.
  intros first second w Hn1 Hn2 Hd1 Hd2.
  pose proof (find_release_update_described first w Hn1 Hd1) as H1.
  pose proof (find_release_update_described second w Hn2 Hd2) as H2.
  rewrite (check_release_update_scanned _ _ _ _ _ H1 H2).
  split; [|split].
  - intros d1 d2 E1 E2 Hne.
    rewrite E1, E2, (first_release_update_truthy _ _ E1).
    rewrite (first_release_update_truthy _ _ E2).
    apply String.eqb_neq in Hne. simpl. rewrite Hne. simpl.
    unfold bind, print. simpl. now rewrite <- !app_assoc.
  - intros d1 E1 E2.
    destruct E2 as [E2|E2]; rewrite E1, E2, (first_release_update_truthy _ _ E1).
    + reflexivity.
    + simpl. now rewrite String.eqb_refl.
  - intros E1 E2. rewrite E1, E2. reflexivity.
Qed.

Lemma check_release_update_cases_witness :
  check_release_update
    [(1, mk_patch (Some "Database Release Update 19.20") "")]
    [(2, mk_patch (Some "Database Release Update 19.21") "")] sample_world
  = (with_stdout
       [LF ++ " ===> WARNING: Database Release Updates differ:";
        "  - First source  => Database Release Update 19.20";
        "  - Second source => Database Release Update 19.21"] sample_world,
     Ok tt)
  /\ check_release_update
       [(1, mk_patch (Some "Database Release Update 19.20") "")]
       [(2, mk_patch (Some "Security Patch") "")] sample_world
     = (with_stdout [LF ++ "Database Release Update 19.20"] sample_world, Ok tt)
  /\ check_release_update
       [(1, mk_patch (Some "Security Patch") "")]
       [(2, mk_patch (Some "Other Patch") "")] sample_world
     = (sample_world, Ok tt).
Proof.
  split; [|split].
  - apply (proj1 (check_release_update_cases
                    [(1, mk_patch (Some "Database Release Update 19.20") "")]
                    [(2, mk_patch (Some "Database Release Update 19.21") "")]
                    sample_world
                    ltac:(repeat constructor; simpl; tauto)
                    ltac:(repeat constructor; simpl; tauto)
                    ltac:(repeat constructor; discriminate)
                    ltac:(repeat constructor; discriminate)));
      [reflexivity|reflexivity|discriminate].
  - apply (proj1 (proj2 (check_release_update_cases
                    [(1, mk_patch (Some "Database Release Update 19.20") "")]
                    [(2, mk_patch (Some "Security Patch") "")]
                    sample_world
                    ltac:(repeat constructor; simpl; tauto)
                    ltac:(repeat constructor; simpl; tauto)
                    ltac:(repeat constructor; discriminate)
                    ltac:(repeat constructor; discriminate))));
      [reflexivity|left; reflexivity].
  - apply (proj2 (proj2 (check_release_update_cases
                    [(1, mk_patch (Some "Security Patch") "")]
                    [(2, mk_patch (Some "Other Patch") "")]
                    sample_world
                    ltac:(repeat constructor; simpl; tauto)
                    ltac:(repeat constructor; simpl; tauto)
                    ltac:(repeat constructor; discriminate)
                    ltac:(repeat constructor; discriminate))));
      reflexivity.
Defined.

(** C2 as it was stated fails where the first Patch Set holds no
    release-update record: whether the second holds one or not, the check
    prints nothing, neither the one description nor a notice that none
    was found. *)
Lemma check_release_update_silent_without_first :
  first_release_update [(1, mk_patch (Some "Security Patch") "")] = None
  /\ first_release_update [(2, mk_patch (Some "Database Release Update 19.21") "")]
     = Some "Database Release Update 19.21"
  /\ check_release_update
       [(1, mk_patch (Some "Security Patch") "")]
       [(2, mk_patch (Some "Database Release Update 19.21") "")] sample_world
     = (sample_world, Ok tt)
  /\ first_release_update [(3, mk_patch (Some "Other Patch") "")] = None
  /\ check_release_update
       [(1, mk_patch (Some "Security Patch") "")]
       [(3, mk_patch (Some "Other Patch") "")] sample_world
     = (sample_world, Ok tt).
Proof. repeat split. Qed.

(** ** Reporting the release update of one source *)

Lemma print_release_update_loop_described d w : forall suffix,
  NoDup (keys d) ->
  (forall kv, In kv suffix -> In kv d) ->
  all_described suffix ->
  print_release_update_loop d (keys suffix) w
  = print (match first_release_update suffix with
           | Some text => "  - " ++ text
           | None => "  - No Database Release Update found"
           end) w.
Proof.
  induction suffix as [|[k p] r IH]; intros Hnd Hsub Hdesc; [reflexivity|].
  simpl. rewrite (dict_get_NoDup_In k p d Hnd) by (apply Hsub; now left).
  inversion Hdesc as [|? ? Hp Hr]; subst. simpl in Hp.
  destruct (description p) as [text|]; [|congruence].
  destruct (startswith RU_MARKER text); [reflexivity|].
  apply IH; auto. intros kv Hin. apply Hsub. now right.
Qed.

(** Where every record has a description and none begins with the marker,
    a non-empty Patch Set gets the not-found line. *)
Lemma print_release_update_not_found d w :
  NoDup (keys d) -> all_described d -> d <> [] ->
  first_release_update d = None ->
  print_release_update d w
  = (with_stdout (stdout w ++ ["Database Release Update:";
                               "  - No Database Release Update found"]) w,
     Ok tt).
Proof.
  intros Hnd Hdesc Hne Hru. unfold print_release_update.
  destruct d as [|kv r]; [congruence|]. unfold is_nil, bind, print at 1.
  rewrite print_release_update_loop_described; auto.
  rewrite Hru. unfold print. simpl. now rewrite <- app_assoc.
Qed.

Lemma print_release_update_loop_raises d w : forall suffix,
  NoDup (keys d) ->
  (forall kv, In kv suffix -> In kv d) ->
  first_release_update suffix = None ->
  Exists (fun kv => description (snd kv) = None) suffix ->
  print_release_update_loop d (keys suffix) w = (w, Raised AttributeError).
Proof.
  induction suffix as [|[k p] r IH]; intros Hnd Hsub Hru Hex; [inversion Hex|].
  simpl. rewrite (dict_get_NoDup_In k p d Hnd) by (apply Hsub; now left).
  simpl in Hru. destruct (description p) as [text|] eqn:D; [|reflexivity].
  destruct (startswith RU_MARKER text); [discriminate|].
  apply IH; auto.
  - intros kv Hin. apply Hsub. now right.
  - inversion Hex as [? ? Hhd|? ? Htl]; subst; [|exact Htl].
    simpl in Hhd. congruence.
Qed.

(** Where no record begins with the marker and some record has no
    description, [print_release_update] ends in an [AttributeError]. *)
Lemma print_release_update_raises d w :
  NoDup (keys d) ->
  first_release_update d = None ->
  Exists (fun kv => description (snd kv) = None) d ->
  print_release_update d w
  = (with_stdout (stdout w ++ ["Database Release Update:"]) w,
     Raised AttributeError).
Proof.
  intros Hnd Hru Hex. unfold print_release_update.
  destruct d as [|kv r]; [inversion Hex|]. unfold is_nil, bind, print at 1.
  now rewrite print_release_update_loop_raises.
Qed.

(** C3, the code at the failing input.  The Format-B text [Patch 101 :]
    decodes to a Patch Set whose only record has no description and so
    does not begin with the marker; on it [print_release_update] prints
    its heading and ends in an [AttributeError], and the cross-check ends
    in the same error. *)
Theorem release_update_on_missing_description :
  read_lsinventory ["Patch 101 :"] = [(101, mk_patch None "")]
  /\ first_release_update (read_lsinventory ["Patch 101 :"]) = None
  /\ print_release_update (read_lsinventory ["Patch 101 :"]) sample_world
     = (with_stdout ["Database Release Update:"] sample_world,
        Raised AttributeError)
  /\ check_release_update (read_lsinventory ["Patch 101 :"])
                          [(1, mk_patch (Some "Security Patch") "")] sample_world
     = (sample_world, Raised AttributeError).
Proof. repeat split. Qed.

(** ** An empty Patch Set ends the run *)

Lemma read_opatch_source_empty_message src w w1 :
  read_opatch_source src w = (w1, Ok []) ->
  source src = "file" \/ source src = "oracle_home" ->
  exists o, stdout w1 = (o ++ [no_patches_message src])%list.
Proof.
  unfold read_opatch_source, no_patches_message.
  intros H [Hs|Hs]; rewrite Hs in *; simpl in H; simpl; unfold bind in H.
  - destruct (read_patches (path src) w) as [w0 [p|c|e]]; try discriminate.
    destruct p as [|kv r]; simpl in H; [|discriminate].
    injection H as <-. now exists (stdout w0).
  - destruct (run_opatch src w) as [w0 [p|c|e]]; try discriminate.
    destruct p as [|kv r]; simpl in H; [|discriminate].
    injection H as <-. now exists (stdout w0).
Qed.

(** C1, as amended.  A source that is read without error but yields no
    patch record gets a message saying that no patches were found; the
    release-update report takes the empty Patch Set and prints nothing;
    then the run ends with exit status 1.  For the first source this
    happens before the second is read, for the second before the
    comparison, so no comparison is made with an empty Patch Set. *)
Theorem prepare_patches_empty_source_exits :
  forall (short : bool) (first : OPatchArg) (ru : bool) (w w1 : world),
    (forall second,
        read_opatch_source first w = (w1, Ok []) ->
        prepare_patches short first second ru w = (w1, SysExit 1)
        /\ print_release_update [] w1 = (w1, Ok tt)
        /\ (source first = "file" \/ source first = "oracle_home" ->
            exists o, stdout w1 = (o ++ [no_patches_message first])%list))
    /\ (forall second patches1 w2 w3,
          read_opatch_source first w = (w1, Ok patches1) ->
          patches1 <> [] ->
          (if ru then print_release_update patches1 else ret tt) w1 = (w2, Ok tt) ->
          read_opatch_source second (with_stdout (stdout w2 ++ [""]) w2)
          = (w3, Ok []) ->
          prepare_patches short first (Some second) ru w = (w3, SysExit 1)
          /\ print_release_update [] w3 = (w3, Ok tt)
          /\ (source second = "file" \/ source second = "oracle_home" ->
              exists o, stdout w3 = (o ++ [no_patches_message second])%list)).
Proof.
  intros short first ru w w1. split.
  - intros second H. split; [|split; [reflexivity|]].
    + unfold prepare_patches. rewrite (bind_ok _ _ _ _ _ H).
      destruct (ru || negb match second with Some _ => true | None => false end);
        reflexivity.
    + now apply read_opatch_source_empty_message with (w := w).
  - intros second patches1 w2 w3 H1 Hne Hru H2. split; [|split; [reflexivity|]].
    + unfold prepare_patches. rewrite (bind_ok _ _ _ _ _ H1).
      simpl negb. rewrite orb_false_r.
      rewrite (bind_ok _ _ _ _ _ Hru).
      destruct patches1 as [|kv r]; [congruence|]. unfold is_nil at 1.
      unfold bind at 1, print at 1.
      rewrite (bind_ok _ _ _ _ _ H2).
      destruct ru; reflexivity.
    + now apply read_opatch_source_empty_message
        with (w := with_stdout (stdout w2 ++ [""]) w2).
Qed.

Lemma prepare_patches_empty_source_exits_witness :
  (prepare_patches false (file_arg "a.txt") (Some (file_arg "b.txt")) false sample_world
   = (with_stdout ["Reading patches from 'opatch lspatches' a.txt...";
                   "No patches found in the file a.txt"] sample_world,
      SysExit 1))
  /\ (prepare_patches false (file_arg "b.txt") (Some (file_arg "a.txt")) true sample_world
      = (with_stdout ["Reading patches from 'opatch lspatches' b.txt...";
                      "Database Release Update:";
                      "  - No Database Release Update found";
                      "";
                      "Reading patches from 'opatch lspatches' a.txt...";
                      "No patches found in the file a.txt"] sample_world,
         SysExit 1)).
Proof.
  split.
  - apply (proj1 (prepare_patches_empty_source_exits false (file_arg "a.txt") false
                    sample_world
                    (with_stdout ["Reading patches from 'opatch lspatches' a.txt...";
                                  "No patches found in the file a.txt"] sample_world))
             (Some (file_arg "b.txt"))).
    reflexivity.
  - apply (proj2 (prepare_patches_empty_source_exits false (file_arg "b.txt") true
                    sample_world
                    (with_stdout ["Reading patches from 'opatch lspatches' b.txt..."]
                                 sample_world))
             (file_arg "a.txt")
             [(1, mk_patch (Some "Desc A") ""); (2, mk_patch (Some "Desc B") "")]
             (with_stdout ["Reading patches from 'opatch lspatches' b.txt...";
                           "Database Release Update:";
                           "  - No Database Release Update found"] sample_world)).
    + reflexivity.
    + discriminate.
    + reflexivity.
    + reflexivity.
Defined.

(** C1 as it was stated fails: the file [a.txt] holds one line without a
    semicolon, so it is read without error and yields no record; the run
    then prints the message and ends with exit status 1, whether that file
    is the first source (the second is not read) or the second (no
    comparison is printed). *)
Lemma empty_patch_set_aborts_run :
  read_patches "a.txt" sample_world
  = (with_stdout ["Reading patches from 'opatch lspatches' a.txt..."] sample_world,
     Ok [])
  /\ prepare_patches false (file_arg "a.txt") (Some (file_arg "b.txt")) false sample_world
     = (with_stdout ["Reading patches from 'opatch lspatches' a.txt...";
                     "No patches found in the file a.txt"] sample_world,
        SysExit 1)
  /\ prepare_patches false (file_arg "b.txt") (Some (file_arg "a.txt")) false sample_world
     = (with_stdout ["Reading patches from 'opatch lspatches' b.txt...";
                     "";
                     "Reading patches from 'opatch lspatches' a.txt...";
                     "No patches found in the file a.txt"] sample_world,
        SysExit 1).
Proof. repeat split. Qed.

(* ------------------------------------------------------------------ *)
(** ** The program on concrete inputs *)

Example strip_example : strip "  12 ; a b  " = "12 ; a b".
Proof. reflexivity. Qed.

Example split_once_example : split_once ";" "1;a;b" = Some ("1", "a;b").
Proof. reflexivity. Qed.

Example int_examples :
  int " -1_0 " = Some (-10) /\ int "1 2" = None /\ int "abc" = None
  /\ int "1__2" = None /\ int "_1" = None /\ int "1_" = None
  /\ int "" = None /\ int "+007" = Some 7.
Proof. repeat split. Qed.

Example str_of_int_examples :
  str_of_int 0 = "0" /\ str_of_int 120 = "120" /\ str_of_int (-7) = "-7".
Proof. repeat split. Qed.

Example splitlines_example :
  splitlines ("a" ++ LF ++ LF ++ "b" ++ String "013" LF ++ "c" ++ LF)
  = ["a"; ""; "b"; "c"].
Proof. reflexivity. Qed.

Example header_examples :
  Re.match_patch_header "Patch  35943157     : applied on Mon" = Some "35943157"
  /\ Re.match_patch_header "Patch description : x" = None
  /\ Re.match_patch_header " Patch 1 :" = None
  /\ Re.match_patch_header "Patch 1:" = None.
Proof. repeat split. Qed.

Example search_desc_examples :
  Re.search_desc ("xx Patch  description:" ++ quoted "a" ++ " b " ++ quoted "c" ++ " d")
  = Some ("a" ++ String Re.dquote " b " ++ String Re.dquote "c")
  /\ Re.search_desc "Patch description : none quoted" = None.
Proof. repeat split. Qed.

(** The Format-A text of the specification's round-trip property. *)
Example read_lspatches_roundtrip :
  read_lspatches (splitlines ("1;Desc A" ++ LF ++ "2;Desc B" ++ LF)) "f" sample_world
  = (sample_world,
     Ok [(1, mk_patch (Some "Desc A") ""); (2, mk_patch (Some "Desc B") "")]).
Proof. reflexivity. Qed.

(** The Format-B scenario of the specification. *)
Example read_lsinventory_scenario :
  read_lsinventory
    ["Patch 101 :"; desc_line "Security Patch"; "  some detail line"; "";
     "Patch 202 :"; desc_line "Database Release Update 19.21"]
  = [(101, mk_patch (Some "Security Patch") "  some detail line");
     (202, mk_patch (Some "Database Release Update 19.21") "")].
Proof. reflexivity. Qed.

Example compare_patches_example :
  compare_patches false (file_arg "a") (file_arg "b")
    [(3, mk_patch (Some "x") "e1"); (2, mk_patch (Some "y") "")]
    [(2, mk_patch (Some "y") ""); (10, mk_patch (Some "t") "ex");
     (7, mk_patch (Some "s") "")] sample_world
  = (with_stdout
       [LF ++ "Summary:";
        "  - First source  => file: a contains 2 patches";
        "  - Second source => file: b contains 3 patches";
        LF ++ "Patches only in the first source:";
        " ==> 3; x"; "e1";
        LF ++ "Patches only in the second source:";
        " ==> 7; s"; " ==> 10; t"; "ex" ++ LF] sample_world,
     SysExit 0).
Proof. reflexivity. Qed.

Example malformed_line_aborts_run :
  prepare_patches false (file_arg "bad.txt") None false sample_world
  = (with_stdout ["Reading patches from 'opatch lspatches' bad.txt...";
                  "error: invalid patch ID: 'abc' in bad.txt"] sample_world,
     SysExit 1).
Proof. reflexivity. Qed.

Example opatch_path_examples :
  opatch_path_of "" = "OPatch/opatch"
  /\ opatch_path_of "/u01/db/" = "/u01/db/OPatch/opatch"
  /\ opatch_path_of "/u01/db" = "/u01/db/OPatch/opatch".
Proof. repeat split. Qed.

Example oracle_home_release_update :
  let r := prepare_patches false
             (mk_OPatchArg "oracle_home" "/u01/db" true false (Some "out.txt"))
             None true home_world in
  stdout (fst r)
  = ["Running command: /u01/db/OPatch/opatch lspatches";
     "OPatch output saved to file: out.txt";
     "Reading patches from 'opatch lspatches' for ORACLE_HOME: /u01/db...";
     "Database Release Update:";
     "  - Database Release Update : 19.24"]
  /\ snd r = SysExit 0
  /\ files (fst r) "out.txt"
     = Some ("36912597;Database Release Update : 19.24" ++ LF).
Proof. repeat split. Qed.

Example oracle_home_failure :
  let r := prepare_patches false
             (mk_OPatchArg "oracle_home" "/u01/db" false true None)
             None false home_world in
  stdout (fst r)
  = ["Running command: /u01/db/OPatch/opatch lsinventory";
     "error: command <cmd> failed with error: failed"]
  /\ snd r = SysExit 1.
Proof. repeat split. Qed.

(* ================================================================== *)
(** * Further properties of the decoders *)

(** ** Format-B: what precedes the first header *)

Lemma lsinventory_step_before_header line :
  Re.match_patch_header line = None ->
  lsinventory_step inv_init line = inv_init.
Proof.
  intros H. unfold lsinventory_step. rewrite H. simpl.
  now destruct (Re.search_desc line).
Qed.

Lemma lsinventory_loop_before_header pre :
  Forall (fun l => Re.match_patch_header l = None) pre ->
  lsinventory_loop inv_init pre = inv_init.
Proof.
  induction pre as [|l r IH]; intros H; [reflexivity|].
  inversion H; subst.
  rewrite lsinventory_loop_cons, lsinventory_step_before_header by assumption.
  now apply IH.
Qed.

(** X1.  The Format-B decoder ignores every line that precedes the first
    header line, description lines included: dropping those lines does not
    change the result, and a text without any header line decodes to the
    empty Patch Set. *)
Theorem lsinventory_ignores_preamble :
  forall pre rest : list string,
    Forall (fun l => Re.match_patch_header l = None) pre ->
    read_lsinventory (pre ++ rest) = read_lsinventory rest
    /\ read_lsinventory pre = [].
Proof.
  intros pre rest H. unfold read_lsinventory.
  rewrite lsinventory_loop_app, (lsinventory_loop_before_header pre H).
  split; reflexivity.
Qed.

Lemma lsinventory_ignores_preamble_witness :
  read_lsinventory (["Oracle Interim Patch Installer version 12.2";
                     desc_line "stray"; "Patch 1:"]
                      ++ ["Patch 7 :"; desc_line "A"])
  = read_lsinventory ["Patch 7 :"; desc_line "A"]
  /\ read_lsinventory ["Oracle Interim Patch Installer version 12.2";
                       desc_line "stray"; "Patch 1:"] = [].
Proof.
  apply (lsinventory_ignores_preamble
           ["Oracle Interim Patch Installer version 12.2"; desc_line "stray"; "Patch 1:"]
           ["Patch 7 :"; desc_line "A"]).
  repeat constructor.
Defined.

(** ** Format-B: every record comes from the input *)

Lemma span_fst_all f s : all_chars f (fst (span f s)) = true.
Proof.
  induction s as [|c r IH]; simpl; [reflexivity|].
  destruct (f c) eqn:E; [|reflexivity].
  destruct (span f r) as [a b]. simpl in *. now rewrite E, IH.
Qed.

Lemma match_patch_header_digits line digits :
  Re.match_patch_header line = Some digits ->
  all_chars isdigit digits = true /\ digits <> EmptyString.
Proof.
  unfold Re.match_patch_header.
  destruct (after_literal "Patch" line) as [r|]; [|discriminate].
  destruct (span isspace r) as [ws1 r1].
  pose proof (span_fst_all isdigit r1) as Hall.
  destruct (span isdigit r1) as [ds r2]. simpl in Hall.
  destruct (span isspace r2) as [ws2 r3].
  destruct (is_empty ws1 || is_empty ds || is_empty ws2) eqn:E; [discriminate|].
  destruct r3 as [|c r4]; [discriminate|].
  destruct c as [[] [] [] [] [] [] [] []]; try discriminate.
  intros [= <-]. split; [exact Hall|].
  intros ->. simpl in E. now rewrite orb_true_r in E.
Qed.

Lemma digit_value_range c : isdigit c = true -> 0 <= digit_value c <= 9.
Proof.
  unfold isdigit, digit_value. cbv zeta. intros H.
  apply andb_true_iff in H. destruct H as [H1 H2].
  apply Nat.leb_le in H1. apply Nat.leb_le in H2.
  revert H1 H2. generalize (nat_of_ascii c). intros n H1 H2. lia.
Qed.

Lemma digits_value_from_nonneg s : forall acc,
  all_chars isdigit s = true -> 0 <= acc -> 0 <= digits_value_from acc s.
Proof.
  induction s as [|c r IH]; cbn [digits_value_from all_chars];
    intros acc H Hacc; [exact Hacc|].
  apply andb_true_iff in H. destruct H as [Hc Hr].
  apply IH; [exact Hr|]. pose proof (digit_value_range c Hc). lia.
Qed.

Lemma store_current_from_input lines sep st :
  sep = LF \/ sep = EmptyString ->
  state_from_input lines st ->
  Forall (from_input lines) (store_current sep st).
Proof.
  intros Hsep (Hid & Hdesc & Hbuf & Hp). unfold store_current.
  destruct (current_id st) as [id|] eqn:E; [|exact Hp].
  destruct (truthy_id (Some id)); [|exact Hp].
  apply Forall_dict_set; [exact Hp|].
  unfold from_input. simpl. split; [|split].
  - destruct Hid as [Hid|(h & ds & Hin & Hh & Hid)]; [discriminate|].
    injection Hid as ->. now exists h, ds.
  - exact Hdesc.
  - now exists (extra_buf st), sep.
Qed.

Lemma state_from_input_step lines st line :
  In line lines ->
  state_from_input lines st ->
  state_from_input lines (lsinventory_step st line).
Proof.
  intros Hin Hst.
  pose proof (store_current_from_input lines LF st (or_introl eq_refl) Hst) as Hstore.
  destruct Hst as (Hid & Hdesc & Hbuf & Hp).
  unfold lsinventory_step.
  destruct (Re.match_patch_header line) as [ds|] eqn:Hh.
  - split; [|split; [|split]]; simpl.
    + right. now exists line, ds.
    + now left.
    + constructor.
    + exact Hstore.
  - destruct (Re.search_desc line) as [text|] eqn:Hd.
    + destruct (truthy_id (current_id st)) eqn:T.
      * split; [|split; [|split]]; simpl; auto.
        right. now exists line.
      * rewrite andb_false_r. now repeat split.
    + assert (Hother : is_other_line line = true)
        by (unfold is_other_line; now rewrite Hh, Hd).
      destruct (is_capturing_extra st); simpl; [|now repeat split].
      destruct (truthy_id (current_id st)); simpl; [|now repeat split].
      destruct (is_empty (strip line)) eqn:B; simpl; [now repeat split|].
      split; [exact Hid|]. split; [exact Hdesc|]. split; [|exact Hp].
      apply Forall_app. split; [exact Hbuf|].
      constructor; [|constructor]. repeat split; auto.
Qed.

Lemma state_from_input_loop lines suffix : forall st,
  (forall l, In l suffix -> In l lines) ->
  state_from_input lines st ->
  state_from_input lines (lsinventory_loop st suffix).
Proof.
  induction suffix as [|l r IH]; intros st Hsub Hst; [exact Hst|].
  rewrite lsinventory_loop_cons. apply IH.
  - intros x Hx. apply Hsub. now right.
  - apply state_from_input_step; [apply Hsub; now left|exact Hst].
Qed.

Lemma read_lsinventory_all_from_input lines :
  Forall (from_input lines) (read_lsinventory lines).
Proof.
  unfold read_lsinventory, lsinventory_finish.
  apply store_current_from_input; [now right|].
  apply state_from_input_loop; [auto|].
  unfold state_from_input, inv_init. simpl. repeat split; auto.
Qed.

(** X2.  The Format-B decoder invents nothing: the identifier of every
    record of its result is the number of a header line of the input, the
    description is absent or the quoted text of a description line of the
    input, and the extra lines are input lines (none blank, none a header
    or description line) joined by line feeds or by nothing. *)
Theorem lsinventory_records_come_from_input :
  forall (lines : list string) (n : Z) (p : patch),
    dict_get n (read_lsinventory lines) = Some p ->
    from_input lines (n, p).
Proof.
  intros lines n p H. apply dict_get_In in H.
  pose proof (read_lsinventory_all_from_input lines) as Hall.
  rewrite Forall_forall in Hall. now apply Hall.
Qed.

Lemma lsinventory_records_come_from_input_witness :
  from_input ["Patch 101 :"; desc_line "Security Patch"; "  some detail line"; "";
              "Patch 202 :"]
             (101, mk_patch (Some "Security Patch") "  some detail line").
Proof.
  apply (lsinventory_records_come_from_input
           ["Patch 101 :"; desc_line "Security Patch"; "  some detail line"; "";
            "Patch 202 :"] 101).
  reflexivity.
Defined.

(** X3.  Every identifier in a Patch Set produced by the Format-B decoder
    is a positive integer. *)
Theorem lsinventory_keys_positive :
  forall (lines : list string) (n : Z),
    In n (keys (read_lsinventory lines)) -> 0 < n.
Proof.
  intros lines n Hin.
  assert (Hnz : n <> 0).
  { rewrite read_lsinventory_records in Hin. apply keys_store_all in Hin.
    destruct Hin as [Hin|[]]. unfold keys in Hin. apply in_map_iff in Hin.
    destruct Hin as (r & <- & Hr).
    pose proof (lsinventory_records_nonzero lines inv_init) as Hall.
    rewrite Forall_forall in Hall. now apply Hall. }
  unfold keys in Hin. apply in_map_iff in Hin. destruct Hin as ([k p] & Hk & Hr).
  simpl in Hk. subst k.
  pose proof (read_lsinventory_all_from_input lines) as Hall.
  rewrite Forall_forall in Hall.
  destruct (Hall _ Hr) as ((h & ds & _ & Hh & Hval) & _). simpl in Hval.
  destruct (match_patch_header_digits h ds Hh) as [Hds _].
  pose proof (digits_value_from_nonneg ds 0 Hds (Z.le_refl 0)) as Hge.
  unfold digits_value in Hval. lia.
Qed.

Lemma lsinventory_keys_positive_witness : 0 < 101.
Proof.
  apply (lsinventory_keys_positive ["Patch 101 :"; desc_line "Security Patch"] 101).
  simpl. now left.
Defined.

(** ** Format-B: decoding a rendered inventory *)

Lemma isdigit_not_isspace c : isdigit c = true -> isspace c = false.
Proof.
  destruct c as [[] [] [] [] [] [] [] []]; intros H;
    solve [reflexivity | discriminate H].
Qed.

Lemma span_all_then f s c r :
  all_chars f s = true -> f c = false ->
  span f (s ++ String c r) = (s, String c r).
Proof.
  intros Hs Hc. induction s as [|a t IH]; simpl.
  - now rewrite Hc.
  - simpl in Hs. apply andb_true_iff in Hs. destruct Hs as [Ha Ht].
    now rewrite Ha, (IH Ht).
Qed.

Lemma match_patch_header_header_line digits :
  digits <> EmptyString -> all_chars isdigit digits = true ->
  Re.match_patch_header (header_line digits) = Some digits.
Proof.
  intros Hne Hall. unfold header_line, Re.match_patch_header.
  destruct digits as [|c r]; [congruence|].
  pose proof Hall as Hall'. cbn [all_chars] in Hall'.
  apply andb_true_iff in Hall'. destruct Hall' as [Hc Hr].
  cbn -[isspace isdigit].
  change (isspace " ") with true. cbv iota.
  rewrite (isdigit_not_isspace c Hc).
  change (String c (r ++ " :")) with (String c r ++ String " " ":")%string.
  rewrite (span_all_then isdigit (String c r) " " ":" Hall eq_refl).
  reflexivity.
Qed.

Lemma match_patch_header_desc_line text :
  Re.match_patch_header (desc_line text) = None.
Proof. reflexivity. Qed.

Lemma until_newline_without_lf s t :
  contains "010" s = false ->
  until_newline (s ++ t) = (s ++ until_newline t)%string.
Proof.
  induction s as [|a r IH]; simpl; intros H; [reflexivity|].
  destruct (Ascii.eqb a "010"); [discriminate|]. now rewrite IH.
Qed.

Lemma before_last_snoc c s :
  before_last c (s ++ String c EmptyString) = Some s.
Proof.
  induction s as [|a r IH]; simpl.
  - now rewrite Ascii.eqb_refl.
  - now rewrite IH.
Qed.

Lemma search_desc_desc_line text :
  contains "010" text = false ->
  Re.search_desc (desc_line text) = Some text.
Proof.
  intros H. unfold desc_line, quoted.
  assert (Hat : Re.match_desc_at
                  ("Patch description : "
                     ++ String Re.dquote (text ++ String Re.dquote EmptyString))
                = Some text).
  { unfold Re.match_desc_at. simpl.
    rewrite (until_newline_without_lf text _ H). simpl.
    apply before_last_snoc. }
  simpl. simpl in Hat. now rewrite Hat.
Qed.

Lemma is_other_line_no_header l :
  is_other_line l = true -> Re.match_patch_header l = None.
Proof.
  unfold is_other_line. now destruct (Re.match_patch_header l).
Qed.

Lemma captured_then_blank extra after :
  Forall (fun l => is_other_line l = true /\ is_blank l = false) extra ->
  match after with [] => True | l :: _ => is_blank l = true end ->
  captured (extra ++ after) = extra.
Proof.
  intros He Ha. induction extra as [|l r IH]; simpl.
  - destruct after as [|a t]; [reflexivity|]. simpl. now rewrite Ha.
  - inversion He as [|? ? [_ Hl] Hr]; subst. rewrite Hl. now rewrite IH.
Qed.

Lemma lsinventory_records_no_header body l2 : forall st,
  Forall (fun l => Re.match_patch_header l = None) body ->
  lsinventory_records_from st (body ++ l2)
  = lsinventory_records_from (lsinventory_loop st body) l2.
Proof.
  induction body as [|l r IH]; intros st H; [reflexivity|].
  inversion H as [|? ? Hl Hr]; subst. simpl. rewrite Hl. simpl.
  now apply IH.
Qed.

Lemma lsinventory_records_from_cons st line rest :
  lsinventory_records_from st (line :: rest)
  = ((match Re.match_patch_header line with
      | Some _ => closed_by LF st
      | None => []
      end) ++ lsinventory_records_from (lsinventory_step st line) rest)%list.
Proof. reflexivity. Qed.

(** The state after a well-formed block. *)
Lemma lsinventory_loop_block st b :
  wf_block b ->
  lsinventory_loop st (block_lines b)
  = mk_inv_state (store_current LF st) (Some (digits_value (blk_digits b)))
                 (Some (blk_desc b)) (blk_extra b)
                 (forallb (fun l => negb (is_blank l)) (blk_extra b ++ blk_after b)).
Proof.
  intros (Hne & Hall & Hnz & Hlf & Hextra & Hafter & Hblank).
  unfold block_lines. rewrite lsinventory_loop_cons.
  rewrite (lsinventory_step_header st _ _
             (match_patch_header_header_line _ Hne Hall)).
  rewrite lsinventory_loop_cons.
  assert (Hstep :
    lsinventory_step
      (mk_inv_state (store_current LF st) (Some (digits_value (blk_digits b)))
                    None [] false) (desc_line (blk_desc b))
    = mk_inv_state (store_current LF st) (Some (digits_value (blk_digits b)))
                   (Some (blk_desc b)) [] true).
  { unfold lsinventory_step.
    rewrite match_patch_header_desc_line, (search_desc_desc_line _ Hlf).
    simpl. apply Z.eqb_neq in Hnz. now rewrite Hnz. }
  rewrite Hstep.
  rewrite lsinventory_loop_capture.
  - simpl. now rewrite (captured_then_blank _ _ Hextra Hblank).
  - simpl. apply Z.eqb_neq in Hnz. now rewrite Hnz.
  - apply Forall_app. split; [|exact Hafter].
    eapply Forall_impl; [|exact Hextra]. now intros l [Hl _].
Qed.

Lemma block_lines_after_header b :
  wf_block b ->
  Forall (fun l => Re.match_patch_header l = None)
         (desc_line (blk_desc b) :: (blk_extra b ++ blk_after b)).
Proof.
  intros (_ & _ & _ & _ & Hextra & Hafter & _).
  constructor; [apply match_patch_header_desc_line|].
  apply Forall_app. split.
  - eapply Forall_impl; [|exact Hextra].
    intros l [Hl _]. now apply is_other_line_no_header.
  - eapply Forall_impl; [|exact Hafter].
    intros l Hl. now apply is_other_line_no_header.
Qed.

Lemma lsinventory_records_blocks bs : forall st,
  Forall wf_block bs ->
  lsinventory_records_from st (concat (map block_lines bs))
  = match bs with
    | [] => closed_by "" st
    | _ => (closed_by LF st ++ block_records bs)%list
    end.
Proof.
  induction bs as [|b rest IH]; intros st Hwf; [reflexivity|].
  inversion Hwf as [|? ? Hb Hrest]; subst.
  pose proof (lsinventory_loop_block st b Hb) as Hstate.
  pose proof (block_lines_after_header b Hb) as Hbody.
  destruct Hb as (Hne & Hall & Hnz & _).
  change (concat (map block_lines (b :: rest)))
    with (block_lines b ++ concat (map block_lines rest))%list.
  unfold block_lines at 1. rewrite <- app_comm_cons.
  rewrite lsinventory_records_from_cons.
  rewrite (match_patch_header_header_line _ Hne Hall).
  f_equal.
  rewrite (lsinventory_records_no_header _ _ _ Hbody).
  change (lsinventory_loop (lsinventory_step st (header_line (blk_digits b)))
            (desc_line (blk_desc b) :: (blk_extra b ++ blk_after b)))
    with (lsinventory_loop st (block_lines b)).
  rewrite Hstate, (IH _ Hrest).
  apply Z.eqb_neq in Hnz.
  destruct rest as [|b' rest']; unfold closed_by; simpl; now rewrite Hnz.
Qed.

(** X4.  Decoding a rendered Format-B inventory gives its records back.
    For any lines without a header in front, followed by well-formed
    blocks (a header [Patch <digits> :] with a non-zero number, a quoted
    description without line feed, detail lines, then optionally a blank
    line and further lines that are neither headers nor descriptions),
    the decoder returns exactly the records of the blocks written in
    order: the description as quoted, the detail lines joined by line
    feeds, except for the last block, whose detail lines are concatenated. *)
Theorem read_lsinventory_of_blocks :
  forall (pre : list string) (bs : list inv_block),
    Forall (fun l => Re.match_patch_header l = None) pre ->
    Forall wf_block bs ->
    read_lsinventory (pre ++ concat (map block_lines bs))
    = store_all (block_records bs) [].
Proof.
  intros pre bs Hpre Hwf.
  unfold read_lsinventory.
  rewrite lsinventory_loop_app, (lsinventory_loop_before_header pre Hpre).
  rewrite lsinventory_finish_records, (lsinventory_records_blocks bs inv_init Hwf).
  now destruct bs.
Qed.

Lemma read_lsinventory_of_blocks_witness :
  read_lsinventory
    (["Interim patches (2) :"; ""]
       ++ concat (map block_lines
            [mk_inv_block "101" "Security Patch" ["  line one"; "  line two"]
                          [""; "----"];
             mk_inv_block "202" "Database Release Update 19.21" ["a"; "b"] []]))
  = store_all
      (block_records
         [mk_inv_block "101" "Security Patch" ["  line one"; "  line two"]
                       [""; "----"];
          mk_inv_block "202" "Database Release Update 19.21" ["a"; "b"] []]) [].
Proof.
  apply (read_lsinventory_of_blocks ["Interim patches (2) :"; ""]).
  - repeat constructor.
  - repeat constructor; discriminate.
Defined.

(** ** Printing an integer and reading it back *)

Lemma digits_value_from_of_uint_acc d : forall acc,
  digits_value_from (Z.pos acc) (NilEmpty.string_of_uint d)
  = Z.pos (Pos.of_uint_acc d acc).
Proof.
  induction d; intros acc;
    cbn [NilEmpty.string_of_uint digits_value_from Pos.of_uint_acc];
    try reflexivity;
    rewrite <- IHd; f_equal;
    match goal with
    | |- context [digit_value ?c] =>
        let v := eval vm_compute in (digit_value c) in
        change (digit_value c) with v
    end; lia.
Qed.

Lemma digits_value_of_uint d :
  digits_value (NilEmpty.string_of_uint d) = Z.of_N (Pos.of_uint d).
Proof.
  unfold digits_value.
  induction d;
    cbn [NilEmpty.string_of_uint digits_value_from Pos.of_uint];
    try reflexivity; try exact IHd;
    match goal with
    | |- context [digit_value ?c] =>
        let v := eval vm_compute in (digit_value c) in
        change (digit_value c) with v
    end;
    cbn [Z.mul Z.add Z.of_N]; apply digits_value_from_of_uint_acc.
Qed.

Lemma string_of_uint_digits d :
  all_chars isdigit (NilEmpty.string_of_uint d) = true.
Proof.
  induction d; cbn [NilEmpty.string_of_uint all_chars]; try reflexivity;
    rewrite IHd; reflexivity.
Qed.

Lemma string_of_uint_empty d :
  NilEmpty.string_of_uint d = EmptyString -> d = Decimal.Nil.
Proof. destruct d; simpl; congruence. Qed.

Lemma int_digits_all_digits s : forall acc,
  all_chars isdigit s = true ->
  int_digits acc true s = Some (digits_value_from acc s).
Proof.
  induction s as [|c r IH]; intros acc H; [reflexivity|].
  cbn [all_chars] in H. apply andb_true_iff in H. destruct H as [Hc Hr].
  cbn [int_digits digits_value_from]. rewrite Hc. now apply IH.
Qed.

Lemma int_digits_start s :
  s <> EmptyString -> all_chars isdigit s = true ->
  int_digits 0 false s = Some (digits_value s).
Proof.
  intros Hne H. destruct s as [|c r]; [congruence|].
  cbn [all_chars] in H. apply andb_true_iff in H. destruct H as [Hc Hr].
  unfold digits_value. cbn [int_digits digits_value_from]. rewrite Hc.
  now apply int_digits_all_digits.
Qed.

Lemma all_chars_impl (f g : ascii -> bool) s :
  (forall c, f c = true -> g c = true) ->
  all_chars f s = true -> all_chars g s = true.
Proof.
  intros Hfg. induction s as [|c r IH]; simpl; [reflexivity|].
  intros H. apply andb_true_iff in H. destruct H as [Hc Hr].
  now rewrite (Hfg c Hc), IH.
Qed.

Lemma lstrip_by_head f c r : f c = false -> lstrip_by f (String c r) = String c r.
Proof. intros H. simpl. now rewrite H. Qed.

Lemma rstrip_by_after f c a d :
  f c = false ->
  rstrip_by f (a ++ String c d) = (a ++ String c (rstrip_by f d))%string.
Proof.
  intros Hc. induction a as [|x a' IH].
  - simpl. rewrite Hc. now destruct (rstrip_by f d).
  - cbn [append rstrip_by]. rewrite IH. now destruct a'.
Qed.

Lemma rstrip_by_none f s :
  all_chars (fun c => negb (f c)) s = true -> rstrip_by f s = s.
Proof.
  induction s as [|c r IH]; simpl; [reflexivity|].
  intros H. apply andb_true_iff in H. destruct H as [Hc Hr].
  apply negb_true_iff in Hc. rewrite (IH Hr), Hc. now destruct r.
Qed.

Lemma contains_none c s :
  all_chars (fun a => negb (Ascii.eqb a c)) s = true -> contains c s = false.
Proof.
  induction s as [|a r IH]; simpl; [reflexivity|].
  intros H. apply andb_true_iff in H. destruct H as [Ha Hr].
  apply negb_true_iff in Ha. now rewrite Ha, IH.
Qed.

Lemma digit_char_facts c :
  isdigit c = true ->
  isspace c = false /\ isspace_int c = false
  /\ Ascii.eqb c ";" = false /\ Ascii.eqb c "-" = false /\ Ascii.eqb c "+" = false.
Proof.
  destruct c as [[] [] [] [] [] [] [] []]; intros H;
    solve [repeat split | discriminate H].
Qed.

(** The text of a non-negative integer: digits only, at least one, and
    their value is the integer. *)
Lemma str_of_int_nonneg n :
  0 <= n ->
  str_of_int n <> EmptyString
  /\ all_chars isdigit (str_of_int n) = true
  /\ digits_value (str_of_int n) = n.
Proof.
  intros Hn. destruct n as [|p|p]; [repeat split; discriminate| |lia].
  unfold str_of_int. cbn [Z.to_int NilZero.string_of_int].
  pose proof (Unsigned.to_uint_nonnil p) as Hnn.
  assert (E : NilZero.string_of_uint (Pos.to_uint p)
              = NilEmpty.string_of_uint (Pos.to_uint p)).
  { unfold NilZero.string_of_uint. destruct (Pos.to_uint p); congruence. }
  rewrite E. split; [|split].
  - intros H. now apply string_of_uint_empty in H.
  - apply string_of_uint_digits.
  - rewrite digits_value_of_uint, Unsigned.of_to. reflexivity.
Qed.

Lemma str_of_int_negative p :
  str_of_int (Z.neg p) = String "-" (str_of_int (Z.pos p)).
Proof. reflexivity. Qed.

Lemma int_of_digits s :
  s <> EmptyString -> all_chars isdigit s = true ->
  int s = Some (digits_value s).
Proof.
  intros Hne H. unfold int.
  assert (Hns : all_chars (fun c => negb (isspace_int c)) s = true).
  { apply (all_chars_impl isdigit); [|exact H].
    intros c Hc. destruct (digit_char_facts c Hc) as (_ & -> & _). reflexivity. }
  destruct s as [|c r]; [congruence|].
  pose proof H as H'. cbn [all_chars] in H'. apply andb_true_iff in H'.
  destruct H' as [Hc _].
  destruct (digit_char_facts c Hc) as (_ & Hsp & _ & Hminus & Hplus).
  rewrite (lstrip_by_head _ _ _ Hsp), (rstrip_by_none _ _ Hns).
  rewrite <- (int_digits_start (String c r) Hne H).
  destruct c as [[] [] [] [] [] [] [] []];
    solve [reflexivity | discriminate Hminus | discriminate Hplus].
Qed.

(** Reading back a printed integer: [int] applied to the text an
    f-string gives for an integer returns that integer. *)
Lemma int_of_str_of_int :
  forall n : Z, int (str_of_int n) = Some n.
Proof.
  intros n. destruct n as [|p|p].
  - reflexivity.
  - destruct (str_of_int_nonneg (Z.pos p)) as (Hne & Hall & Hval); [lia|].
    rewrite (int_of_digits _ Hne Hall). now rewrite Hval.
  - destruct (str_of_int_nonneg (Z.pos p)) as (Hne & Hall & Hval); [lia|].
    rewrite str_of_int_negative. unfold int.
    assert (Hns : all_chars (fun c => negb (isspace_int c))
                            (String "-" (str_of_int (Z.pos p))) = true).
    { cbn [all_chars]. apply andb_true_iff. split; [reflexivity|].
      apply (all_chars_impl isdigit); [|exact Hall].
      intros c Hc. destruct (digit_char_facts c Hc) as (_ & -> & _). reflexivity. }
    rewrite lstrip_by_head by reflexivity.
    rewrite (rstrip_by_none _ _ Hns).
    rewrite (int_digits_start _ Hne Hall), Hval. reflexivity.
Qed.

(** ** Format-A: decoding rendered records *)

Lemma str_of_int_shape n :
  (exists c r, str_of_int n = String c r /\ isspace c = false)
  /\ contains ";" (str_of_int n) = false.
Proof.
  assert (Hpos : forall m, 0 <= m ->
            (exists c r, str_of_int m = String c r /\ isdigit c = true)
            /\ contains ";" (str_of_int m) = false).
  { intros m Hm. destruct (str_of_int_nonneg m Hm) as (Hne & Hall & _). split.
    - destruct (str_of_int m) as [|c r]; [congruence|].
      cbn [all_chars] in Hall. apply andb_true_iff in Hall.
      exists c, r. tauto.
    - apply contains_none. apply (all_chars_impl isdigit); [|exact Hall].
      intros c Hc. destruct (digit_char_facts c Hc) as (_ & _ & -> & _).
      reflexivity. }
  destruct n as [|p|p].
  - destruct (Hpos 0 (Z.le_refl 0)) as ((c & r & E & Hc) & Hs).
    split; [|exact Hs]. exists c, r. split; [exact E|].
    now destruct (digit_char_facts c Hc).
  - destruct (Hpos (Z.pos p)) as ((c & r & E & Hc) & Hs); [lia|].
    split; [|exact Hs]. exists c, r. split; [exact E|].
    now destruct (digit_char_facts c Hc).
  - destruct (Hpos (Z.pos p)) as (_ & Hs); [lia|].
    rewrite str_of_int_negative. split.
    + now exists "-"%char, (str_of_int (Z.pos p)).
    + simpl. exact Hs.
Qed.

Lemma lspatches_record_of_line n desc :
  lspatches_record (lspatches_line (n, desc))
  = Some (n, mk_patch (Some (rstrip_by isspace desc)) "").
Proof.
  unfold lspatches_record, lspatches_line, strip. cbn [fst snd].
  destruct (str_of_int_shape n) as ((c & r & E & Hc) & Hs).
  assert (Hstrip :
    rstrip_by isspace (lstrip_by isspace (str_of_int n ++ String ";" desc))
    = (str_of_int n ++ String ";" (rstrip_by isspace desc))%string).
  { rewrite E. cbn [append]. rewrite (lstrip_by_head _ _ _ Hc).
    change (String c (r ++ String ";" desc))
      with (String c r ++ String ";" desc)%string.
    now rewrite rstrip_by_after by reflexivity. }
  rewrite Hstrip.
  assert (Hsplit : split_once ";" (str_of_int n ++ String ";" (rstrip_by isspace desc))
                   = Some (str_of_int n, rstrip_by isspace desc))
    by (apply split_once_spec; auto).
  now rewrite Hsplit, int_of_str_of_int.
Qed.

Lemma lspatches_records_of_lines recs :
  lspatches_records (map lspatches_line recs)
  = map (fun r => (fst r, mk_patch (Some (rstrip_by isspace (snd r))) "")) recs.
Proof.
  induction recs as [|[n desc] rest IH]; [reflexivity|].
  cbn [map lspatches_records]. now rewrite lspatches_record_of_line, IH.
Qed.

Lemma lspatches_lines_wellformed recs :
  Forall (fun l => malformed l = false) (map lspatches_line recs).
Proof.
  apply Forall_forall. intros l Hin. apply in_map_iff in Hin.
  destruct Hin as ([n desc] & <- & _).
  pose proof (lspatches_record_of_line n desc) as H.
  unfold lspatches_record in H. unfold malformed.
  destruct (split_once ";" (strip (lspatches_line (n, desc)))) as [[num d]|];
    [|reflexivity].
  now destruct (int num).
Qed.

(** X5.  Decoding rendered Format-A records gives them back.  For any
    list of records [(n, desc)], with [n] any integer, the lines
    [<n>;<desc>] decode without output and without error to the Patch Set
    obtained by writing the records in order: each identifier is the
    integer that was printed and each description is [desc] as written
    (further semicolons included) without its trailing whitespace. *)
Theorem read_lspatches_of_lines :
  forall (recs : list (Z * string)) (filename : string) (w : world),
    read_lspatches (map lspatches_line recs) filename w
    = (w, Ok (store_all
                (map (fun r => (fst r, mk_patch (Some (rstrip_by isspace (snd r))) ""))
                     recs) [])).
Proof.
  intros recs filename w. unfold read_lspatches.
  rewrite read_lspatches_loop_wellformed by apply lspatches_lines_wellformed.
  now rewrite lspatches_records_of_lines.
Qed.

(** ** Format-A: the possible outcomes *)

Lemma malformed_dec lines :
  Forall (fun l => malformed l = false) lines
  \/ Exists (fun l => malformed l = true) lines.
Proof.
  induction lines as [|l r [IH|IH]].
  - left. constructor.
  - destruct (malformed l) eqn:E.
    + right. now constructor.
    + left. now constructor.
  - right. now apply Exists_cons_tl.
Qed.

(** X6.  [read_lspatches] is all or nothing and never ends in an
    exception: either no line is malformed, and it prints nothing and
    returns the records of the lines written in order, or some line is
    malformed, and it prints one line and exits with status 1. *)
Theorem read_lspatches_outcomes :
  forall (lines : list string) (filename : string) (w : world),
    (Forall (fun l => malformed l = false) lines
     /\ read_lspatches lines filename w
        = (w, Ok (store_all (lspatches_records lines) [])))
    \/ (Exists (fun l => malformed l = true) lines
        /\ exists msg,
            read_lspatches lines filename w
            = (with_stdout (stdout w ++ [msg]) w, SysExit 1)).
Proof.
  intros lines filename w. destruct (malformed_dec lines) as [H|H].
  - left. split; [exact H|]. now apply read_lspatches_loop_wellformed.
  - right. split; [exact H|].
    destruct (first_malformed _ H) as (b & x & a & -> & Hb & Hx).
    destruct (read_lspatches_loop_malformed b x a filename [] w Hb Hx)
      as (num & desc & _ & _ & Hrun).
    eexists. exact Hrun.
Qed.

(** ** Reading a file *)

Lemma splitlines_from_started s : forall l, splitlines_from (Some l) s <> [].
Proof.
  induction s as [|c r IH]; intros l; cbn [splitlines_from]; [discriminate|].
  destruct (is_linebreak c); [|apply IH].
  destruct c as [[] [] [] [] [] [] [] []]; try discriminate;
    destruct r as [|[[] [] [] [] [] [] [] []] r']; discriminate.
Qed.

Lemma splitlines_nil s : splitlines s = [] <-> s = EmptyString.
Proof.
  split; [|now intros ->].
  destruct s as [|c r]; [reflexivity|]. unfold splitlines.
  cbn [splitlines_from]. intros H. exfalso. revert H.
  destruct (is_linebreak c); [|apply splitlines_from_started].
  destruct c as [[] [] [] [] [] [] [] []]; try discriminate;
    destruct r as [|[[] [] [] [] [] [] [] []] r']; discriminate.
Qed.

(** X7.  [read_patches] on a file: a file that cannot be opened ends the
    run in an [OSError], and a file that opens but does not decode in a
    [UnicodeDecodeError], both with nothing printed; a file that reads as
    a text without a single character, and only such a file, gets the
    message that no lines were found and exit status 1; any other file
    that reads as text is announced and decoded, as a full inventory when
    one of its lines begins with a banner phrase and as a patch list
    otherwise. *)
Theorem read_patches_outcomes :
  forall (filename : string) (w : world),
    match files w filename with
    | None =>
        read_patches filename w
        = (w, Raised (match read_failure_of w filename with
                      | CannotOpen => OSError
                      | CannotDecode _ => UnicodeDecodeError
                      end))
    | Some EmptyString =>
        read_patches filename w
        = (with_stdout (stdout w ++ ["error: no lines found in " ++ filename]) w,
           SysExit 1)
    | Some text =>
        splitlines text <> []
        /\ read_patches filename w
           = if is_lsinventory (splitlines text) then
               (with_stdout
                  (stdout w ++ ["Reading patches from 'opatch lsinventory' "
                                  ++ filename ++ "..."]) w,
                Ok (read_lsinventory (splitlines text)))
             else
               read_lspatches (splitlines text) filename
                 (with_stdout
                    (stdout w ++ ["Reading patches from 'opatch lspatches' "
                                    ++ filename ++ "..."]) w)
    end.
Proof.
  intros filename w. unfold read_patches, bind, read_file.
  destruct (files w filename) as [text|]; [|reflexivity].
  destruct text as [|c r]; [reflexivity|].
  assert (Hne : splitlines (String c r) <> []).
  { intros H. apply splitlines_nil in H. discriminate. }
  split; [exact Hne|].
  destruct (splitlines (String c r)) as [|l ls]; [congruence|].
  cbn [is_nil]. now destruct (is_lsinventory (l :: ls)).
Qed.

Lemma contains_lstrip_by f c s :
  contains c s = false -> contains c (lstrip_by f s) = false.
Proof.
  induction s as [|a r IH]; simpl; [auto|].
  destruct (Ascii.eqb a c) eqn:E; [discriminate|].
  intros H. destruct (f a); [now apply IH|]. simpl. now rewrite E.
Qed.

Lemma contains_rstrip_by f c s :
  contains c s = false -> contains c (rstrip_by f s) = false.
Proof.
  induction s as [|a r IH]; simpl; [auto|].
  destruct (Ascii.eqb a c) eqn:E; [discriminate|].
  intros H. specialize (IH H).
  destruct (rstrip_by f r) as [|b t].
  - destruct (f a); simpl; [reflexivity|now rewrite E].
  - cbn [contains]. rewrite E. exact IH.
Qed.

Lemma lspatches_records_no_semicolon lines :
  Forall (fun l => contains ";" l = false) lines ->
  Forall (fun l => malformed l = false) lines /\ lspatches_records lines = [].
Proof.
  induction lines as [|l r IH]; intros H; [split; [constructor|reflexivity]|].
  inversion H as [|? ? Hl Hr]; subst. destruct (IH Hr) as [Hm Hrec].
  assert (S : split_once ";" (strip l) = None).
  { apply contains_split_once. unfold strip.
    now apply contains_rstrip_by, contains_lstrip_by. }
  split.
  - constructor; [|exact Hm]. unfold malformed. now rewrite S.
  - simpl. unfold lspatches_record. now rewrite S.
Qed.

(** X8.  The format is chosen by the banner alone: a file none of whose
    lines begins with a banner phrase is decoded as a patch list, and if
    in addition no line holds a semicolon (a full inventory whose banner
    is missing, say), [read_patches] announces a patch list and returns
    the empty Patch Set without any error. *)
Theorem read_patches_without_banner :
  forall (filename text : string) (w : world),
    files w filename = Some text ->
    text <> EmptyString ->
    is_lsinventory (splitlines text) = false ->
    Forall (fun l => contains ";" l = false) (splitlines text) ->
    read_patches filename w
    = (with_stdout
         (stdout w ++ ["Reading patches from 'opatch lspatches' "
                         ++ filename ++ "..."]) w,
       Ok []).
Proof.
  intros filename text w Hf Hne Hfmt Hsemi.
  rewrite (read_patches_lspatches filename text w Hf); [| |exact Hfmt].
  - destruct (lspatches_records_no_semicolon _ Hsemi) as [Hm Hrec].
    unfold read_lspatches. rewrite read_lspatches_loop_wellformed by exact Hm.
    now rewrite Hrec.
  - intros H. now apply splitlines_nil in H.
Qed.

Lemma read_patches_without_banner_witness :
  read_patches "inv.txt"
    (with_file "inv.txt" ("Patch 101 :" ++ LF ++ desc_line "Security Patch" ++ LF)
               sample_world)
  = (with_stdout ["Reading patches from 'opatch lspatches' inv.txt..."]
       (with_file "inv.txt" ("Patch 101 :" ++ LF ++ desc_line "Security Patch" ++ LF)
                  sample_world),
     Ok []).
Proof.
  apply (read_patches_without_banner "inv.txt"
           ("Patch 101 :" ++ LF ++ desc_line "Security Patch" ++ LF)).
  - reflexivity.
  - discriminate.
  - reflexivity.
  - repeat constructor.
Defined.

(** ** The difference lists are in ascending order *)

Lemma insert_sorted_strongly x l :
  StronglySorted Z.lt l -> ~ In x l -> StronglySorted Z.lt (insert_sorted x l).
Proof.
  induction 1 as [|y r Hs IH Hy]; intros Hx; simpl.
  - constructor; constructor.
  - destruct (x <=? y) eqn:E.
    + apply Z.leb_le in E.
      assert (Hlt : x < y) by (assert (x <> y) by (intros ->; apply Hx; now left); lia).
      constructor; [now constructor|].
      constructor; [exact Hlt|].
      eapply Forall_impl; [|exact Hy]. intros z Hz. simpl in Hz. lia.
    + apply Z.leb_gt in E.
      constructor; [apply IH; intros H; apply Hx; now right|].
      apply Forall_forall. intros z Hz. apply In_insert_sorted in Hz.
      destruct Hz as [->|Hz]; [exact E|].
      rewrite Forall_forall in Hy. now apply Hy.
Qed.

Lemma sorted_strongly l : NoDup l -> StronglySorted Z.lt (sorted l).
Proof.
  induction 1 as [|x r Hx Hnd IH]; simpl; [constructor|].
  apply insert_sorted_strongly; [exact IH|]. now rewrite In_sorted.
Qed.

(** X9.  Both difference lists of the comparator are in strictly
    ascending order of identifier, whatever the insertion order of the two
    Patch Sets: no identifier is listed twice and each is smaller than all
    that follow it. *)
Theorem compare_lists_ascending :
  forall A B : patch_set,
    StronglySorted Z.lt (only_in_first A B)
    /\ StronglySorted Z.lt (only_in_second A B).
Proof.
  intros A B. split; apply sorted_strongly; apply NoDup_nodup.
Qed.

(** ** The comparison report *)

Lemma print_unique_lines short tail d nums : forall w,
  (forall n, In n nums -> In n (keys d)) ->
  print_unique short tail d nums w
  = (with_stdout (stdout w ++ unique_lines short tail d nums) w, Ok tt).
Proof.
  induction nums as [|num rest IH]; intros w Hsub.
  - simpl. unfold ret. rewrite app_nil_r. now destruct w.
  - assert (Hin : In num (keys d)) by (apply Hsub; now left).
    apply has_key_In in Hin. unfold has_key in Hin.
    cbn [print_unique unique_lines flat_map].
    destruct (dict_get num d) as [p|]; [|discriminate].
    unfold bind at 1, print at 1.
    destruct (negb short && negb (is_empty (extra_lines p))).
    + unfold bind at 1, print at 1. rewrite IH by (intros n Hn; apply Hsub; now right).
      cbn [stdout with_stdout]. f_equal.
      now rewrite <- !app_assoc.
    + unfold bind at 1, ret at 1. rewrite IH by (intros n Hn; apply Hsub; now right).
      cbn [stdout with_stdout]. f_equal.
      now rewrite <- !app_assoc.
Qed.

Lemma only_in_first_keys A B n : In n (only_in_first A B) -> In n (keys A).
Proof.
  unfold only_in_first. rewrite In_sorted, In_key_difference. tauto.
Qed.

Lemma only_in_second_keys A B n : In n (only_in_second A B) -> In n (keys B).
Proof.
  unfold only_in_second. rewrite In_sorted, In_key_difference. tauto.
Qed.

Lemma compare_patches_after_check short first second patches1 patches2 w w1 :
  check_release_update patches1 patches2
    (with_stdout
       (stdout w ++ [LF ++ "Summary:";
                     "  - First source  => " ++ source_label first ++ " contains "
                       ++ str_of_int (Z.of_nat (length patches1)) ++ " patches";
                     "  - Second source => " ++ source_label second ++ " contains "
                       ++ str_of_int (Z.of_nat (length patches2)) ++ " patches"]) w)
  = (w1, Ok tt) ->
  compare_patches short first second patches1 patches2 w
  = (with_stdout
       (stdout w1
          ++ [LF ++ "Patches only in the first source:"]
          ++ (if is_nil (only_in_first patches1 patches2)
              then ["  No patches only in " ++ source_label first]
              else unique_lines short "" patches1 (only_in_first patches1 patches2))
          ++ [LF ++ "Patches only in the second source:"]
          ++ (if is_nil (only_in_second patches1 patches2)
              then ["  No patches only in the " ++ source_label second]
              else unique_lines short LF patches2 (only_in_second patches1 patches2)))
       w1,
     SysExit 0).
Proof.
  intros Hcheck. unfold compare_patches.
  unfold bind at 1, print at 1. unfold bind at 1, print at 1.
  unfold bind at 1, print at 1.
  cbn [stdout with_stdout]. rewrite <- !app_assoc. cbn [app].
  rewrite (bind_ok _ _ _ _ _ Hcheck).
  unfold bind at 1, print at 1.
  assert (H1 : forall w0,
    (if is_nil (only_in_first patches1 patches2)
     then print ("  No patches only in " ++ source_label first)
     else print_unique short "" patches1 (only_in_first patches1 patches2)) w0
    = (with_stdout
         (stdout w0 ++ (if is_nil (only_in_first patches1 patches2)
                        then ["  No patches only in " ++ source_label first]
                        else unique_lines short "" patches1
                               (only_in_first patches1 patches2))) w0, Ok tt)).
  { intros w0. destruct (is_nil (only_in_first patches1 patches2)); [reflexivity|].
    apply print_unique_lines. intros n. apply only_in_first_keys. }
  assert (H2 : forall w0,
    (if is_nil (only_in_second patches1 patches2)
     then print ("  No patches only in the " ++ source_label second)
     else print_unique short LF patches2 (only_in_second patches1 patches2)) w0
    = (with_stdout
         (stdout w0 ++ (if is_nil (only_in_second patches1 patches2)
                        then ["  No patches only in the " ++ source_label second]
                        else unique_lines short LF patches2
                               (only_in_second patches1 patches2))) w0, Ok tt)).
  { intros w0. destruct (is_nil (only_in_second patches1 patches2)); [reflexivity|].
    apply print_unique_lines. intros n. apply only_in_second_keys. }
  rewrite (bind_ok _ _ _ _ _ (H1 _)).
  unfold bind at 1, print at 1.
  rewrite (bind_ok _ _ _ _ _ (H2 _)).
  unfold sys_exit. cbn [stdout with_stdout]. rewrite <- !app_assoc. reflexivity.
Qed.

(** X10.  The report of [compare_patches].  Whenever the release-update
    check that follows the three summary lines completes, the comparison
    prints, for each side, a heading and then either one line saying that
    the source has no patch of its own or, for each identifier of the
    difference list in order, its line (description [None] when absent)
    followed by its extra lines when there are some and the short mode is
    off; a line feed follows the extra lines on the second side only.  No
    lookup fails, and the run ends with exit status 0. *)
Theorem compare_patches_report :
  forall (short : bool) (first second : OPatchArg)
         (patches1 patches2 : patch_set) (w w1 : world),
    check_release_update patches1 patches2
      (with_stdout
         (stdout w ++ [LF ++ "Summary:";
                       "  - First source  => " ++ source_label first ++ " contains "
                         ++ str_of_int (Z.of_nat (length patches1)) ++ " patches";
                       "  - Second source => " ++ source_label second ++ " contains "
                         ++ str_of_int (Z.of_nat (length patches2)) ++ " patches"]) w)
    = (w1, Ok tt) ->
    compare_patches short first second patches1 patches2 w
    = (with_stdout
         (stdout w1
            ++ [LF ++ "Patches only in the first source:"]
            ++ (if is_nil (only_in_first patches1 patches2)
                then ["  No patches only in " ++ source_label first]
                else unique_lines short "" patches1 (only_in_first patches1 patches2))
            ++ [LF ++ "Patches only in the second source:"]
            ++ (if is_nil (only_in_second patches1 patches2)
                then ["  No patches only in the " ++ source_label second]
                else unique_lines short LF patches2 (only_in_second patches1 patches2)))
         w1,
       SysExit 0).
Proof. intros. now apply compare_patches_after_check. Qed.

Lemma compare_patches_report_witness :
  compare_patches false (file_arg "a") (file_arg "b")
    [(3, mk_patch (Some "x") "e1"); (2, mk_patch (Some "Database Release Update 19") "")]
    [(2, mk_patch (Some "Database Release Update 19") ""); (10, mk_patch None "ex")]
    sample_world
  = (with_stdout
       [LF ++ "Summary:";
        "  - First source  => file: a contains 2 patches";
        "  - Second source => file: b contains 2 patches";
        LF ++ "Database Release Update 19";
        LF ++ "Patches only in the first source:";
        " ==> 3; x"; "e1";
        LF ++ "Patches only in the second source:";
        " ==> 10; None"; "ex" ++ LF] sample_world,
     SysExit 0).
Proof.
  apply (compare_patches_report false (file_arg "a") (file_arg "b")
           [(3, mk_patch (Some "x") "e1");
            (2, mk_patch (Some "Database Release Update 19") "")]
           [(2, mk_patch (Some "Database Release Update 19") "");
            (10, mk_patch None "ex")]
           sample_world
           (with_stdout
              [LF ++ "Summary:";
               "  - First source  => file: a contains 2 patches";
               "  - Second source => file: b contains 2 patches";
               LF ++ "Database Release Update 19"] sample_world)).
  reflexivity.
Defined.

Lemma key_difference_self (A : patch_set) : key_difference A A = [].
Proof.
  unfold key_difference.
  assert (H : filter (fun k => negb (has_key k A)) (keys A) = []).
  { assert (Hall : forall l, (forall k, In k l -> In k (keys A)) ->
                             filter (fun k => negb (has_key k A)) l = []).
    { induction l as [|k r IH]; intros Hsub; [reflexivity|].
      simpl. rewrite (proj2 (has_key_In k A)) by (apply Hsub; now left).
      simpl. apply IH. intros x Hx. apply Hsub. now right. }
    apply Hall. auto. }
  now rewrite H.
Qed.

(** X11.  Comparing a Patch Set (with unique keys and all descriptions
    present) with itself reports no difference: both difference lists are
    empty, the report holds the three summary lines, the description of
    the release update if the set has one, and for each side the heading
    and the line saying that the source has no patch of its own; there is
    never a warning, and the exit status is 0. *)
Theorem compare_patches_with_itself :
  forall (short : bool) (first second : OPatchArg) (A : patch_set) (w : world),
    NoDup (keys A) -> all_described A ->
    only_in_first A A = [] /\ only_in_second A A = []
    /\ compare_patches short first second A A w
       = (with_stdout
            (stdout w
               ++ [LF ++ "Summary:";
                   "  - First source  => " ++ source_label first ++ " contains "
                     ++ str_of_int (Z.of_nat (length A)) ++ " patches";
                   "  - Second source => " ++ source_label second ++ " contains "
                     ++ str_of_int (Z.of_nat (length A)) ++ " patches"]
               ++ (match first_release_update A with
                   | Some text => [LF ++ text]
                   | None => []
                   end)
               ++ [LF ++ "Patches only in the first source:";
                   "  No patches only in " ++ source_label first;
                   LF ++ "Patches only in the second source:";
                   "  No patches only in the " ++ source_label second]) w,
          SysExit 0).
Proof.
  intros short first second A w Hnd Hdesc.
  assert (E1 : only_in_first A A = [])
    by (unfold only_in_first; now rewrite key_difference_self).
  assert (E2 : only_in_second A A = [])
    by (unfold only_in_second; now rewrite key_difference_self).
  split; [exact E1|]. split; [exact E2|].
  set (w0 := with_stdout
       (stdout w ++ [LF ++ "Summary:";
                     "  - First source  => " ++ source_label first ++ " contains "
                       ++ str_of_int (Z.of_nat (length A)) ++ " patches";
                     "  - Second source => " ++ source_label second ++ " contains "
                       ++ str_of_int (Z.of_nat (length A)) ++ " patches"]) w).
  assert (Hcheck : check_release_update A A w0
                   = (with_stdout
                        (stdout w0 ++ match first_release_update A with
                                      | Some text => [LF ++ text]
                                      | None => []
                                      end) w0, Ok tt)).
  { pose proof (find_release_update_described A w0 Hnd Hdesc) as Hscan.
    rewrite (check_release_update_scanned _ _ _ _ _ Hscan Hscan).
    destruct (first_release_update A) as [text|] eqn:E.
    - rewrite (first_release_update_truthy _ _ E). simpl.
      now rewrite String.eqb_refl.
    - simpl. unfold ret. rewrite app_nil_r. unfold w0. reflexivity. }
  rewrite (compare_patches_after_check short first second A A w _ Hcheck).
  rewrite E1, E2. unfold w0. cbn [is_nil stdout with_stdout].
  now rewrite <- !app_assoc.
Qed.

Lemma compare_patches_with_itself_witness :
  compare_patches true (file_arg "a") (file_arg "b")
    [(7, mk_patch (Some "Database Release Update 19.21") "x");
     (3, mk_patch (Some "Security Patch") "")]
    [(7, mk_patch (Some "Database Release Update 19.21") "x");
     (3, mk_patch (Some "Security Patch") "")] sample_world
  = (with_stdout
       [LF ++ "Summary:";
        "  - First source  => file: a contains 2 patches";
        "  - Second source => file: b contains 2 patches";
        LF ++ "Database Release Update 19.21";
        LF ++ "Patches only in the first source:";
        "  No patches only in file: a";
        LF ++ "Patches only in the second source:";
        "  No patches only in the file: b"] sample_world,
     SysExit 0).
Proof.
  apply (proj2 (proj2 (compare_patches_with_itself true (file_arg "a") (file_arg "b")
           [(7, mk_patch (Some "Database Release Update 19.21") "x");
            (3, mk_patch (Some "Security Patch") "")] sample_world
           ltac:(repeat constructor; simpl; intuition discriminate)
           ltac:(repeat constructor; discriminate)))).
Defined.

(** ** The scans stop at the first release update *)

Lemma release_update_scans_prefix d k p post text w : forall pre,
  NoDup (keys d) ->
  (forall kv, In kv (pre ++ (k, p) :: post)%list -> In kv d) ->
  all_described pre -> first_release_update pre = None ->
  description p = Some text -> startswith RU_MARKER text = true ->
  find_release_update d (keys (pre ++ (k, p) :: post)%list) w = (w, Ok (Some text))
  /\ print_release_update_loop d (keys (pre ++ (k, p) :: post)%list) w
     = print ("  - " ++ text) w.
Proof.
  induction pre as [|[k0 p0] r IH]; intros Hnd Hsub Hdesc Hnone Hp Hm.
  - simpl. rewrite (dict_get_NoDup_In k p d Hnd) by (apply Hsub; now left).
    rewrite Hp, Hm. split; reflexivity.
  - simpl. rewrite (dict_get_NoDup_In k0 p0 d Hnd) by (apply Hsub; now left).
    inversion Hdesc as [|? ? Hp0 Hr]; subst. simpl in Hp0, Hnone.
    destruct (description p0) as [t0|]; [|congruence].
    destruct (startswith RU_MARKER t0); [discriminate|].
    apply IH; auto. intros kv Hin. apply Hsub. now right.
Qed.

(** X12.  First match wins, and nothing after it is looked at.  In a
    Patch Set with unique keys, if the records before some record all have
    a description not beginning with the marker and that record's
    description begins with it, then the cross-check scan yields that
    description and [print_release_update] prints it under its heading,
    whatever follows: later release updates are not reported and a later
    record without description does not raise an error. *)
Theorem release_update_first_match_wins :
  forall (pre post : patch_set) (k : Z) (p : patch) (text : string) (w : world),
    NoDup (keys (pre ++ (k, p) :: post)%list) ->
    all_described pre -> first_release_update pre = None ->
    description p = Some text -> startswith RU_MARKER text = true ->
    find_release_update (pre ++ (k, p) :: post)%list (keys (pre ++ (k, p) :: post)%list) w
    = (w, Ok (Some text))
    /\ print_release_update (pre ++ (k, p) :: post)%list w
       = (with_stdout (stdout w ++ ["Database Release Update:"; "  - " ++ text]) w,
          Ok tt).
Proof.
  intros pre post k p text w Hnd Hdesc Hnone Hp Hm.
  split.
  - now apply (release_update_scans_prefix _ k p post text w pre).
  - unfold print_release_update.
    assert (Hne : is_nil (pre ++ (k, p) :: post)%list = false) by now destruct pre.
    rewrite Hne. unfold bind at 1, print at 1.
    rewrite (proj2 (release_update_scans_prefix _ k p post text _ pre
                      Hnd (fun kv H => H) Hdesc Hnone Hp Hm)).
    unfold print. cbn [stdout with_stdout]. now rewrite <- app_assoc.
Qed.

Lemma release_update_first_match_wins_witness :
  print_release_update
    ([(1, mk_patch (Some "Security Patch") "")]
       ++ (2, mk_patch (Some "Database Release Update 19.21") "")
       :: [(3, mk_patch None ""); (4, mk_patch (Some "Database Release Update 19.3") "")])%list
    sample_world
  = (with_stdout ["Database Release Update:";
                  "  - Database Release Update 19.21"] sample_world,
     Ok tt).
Proof.
  apply (proj2 (release_update_first_match_wins
           [(1, mk_patch (Some "Security Patch") "")]
           [(3, mk_patch None ""); (4, mk_patch (Some "Database Release Update 19.3") "")]
           2 (mk_patch (Some "Database Release Update 19.21") "")
           "Database Release Update 19.21" sample_world
           ltac:(repeat constructor; simpl; intuition discriminate)
           ltac:(repeat constructor; discriminate)
           eq_refl eq_refl eq_refl)).
Defined.

(** ** How a run can end *)

Lemma exits_within_ret {A} P (a : A) : exits_within P (ret a).
Proof. intros w w' c H. discriminate. Qed.

Lemma exits_within_print P s : exits_within P (print s).
Proof. intros w w' c H. discriminate. Qed.

Lemma exits_within_raise {A} P e : exits_within P (@raise A e).
Proof. intros w w' c H. discriminate. Qed.

Lemma exits_within_ask P : exits_within P ask.
Proof. intros w w' c H. discriminate. Qed.

Lemma exits_within_sys_exit {A} (P : Z -> Prop) c : P c -> exits_within P (@sys_exit A c).
Proof. intros Hc w w' c' [= _ <-]. exact Hc. Qed.

Lemma exits_within_read_file P p : exits_within P (read_file p).
Proof. intros w w' c. unfold read_file. destruct (files w p); discriminate. Qed.

Lemma exits_within_write_file P p t : exits_within P (write_file p t).
Proof. intros w w' c. unfold write_file. destruct (writable w p); discriminate. Qed.

Lemma exits_within_bind {A B} P (m : M A) (f : A -> M B) :
  exits_within P m -> (forall a, exits_within P (f a)) ->
  exits_within P (bind m f).
Proof.
  intros Hm Hf w w' c. unfold bind.
  destruct (m w) as [w0 [a|c0|e]] eqn:E.
  - apply Hf.
  - intros [= <- <-]. exact (Hm _ _ _ E).
  - discriminate.
Qed.

Lemma no_return_sys_exit {A} c : no_return (@sys_exit A c).
Proof. intros w w' a H. discriminate. Qed.

Lemma no_return_bind {A B} (m : M A) (f : A -> M B) :
  (forall a, no_return (f a)) -> no_return (bind m f).
Proof.
  intros Hf w w' b. unfold bind.
  destruct (m w) as [w0 [a|c0|e]]; [apply Hf|discriminate|discriminate].
Qed.

Ltac exits_step :=
  match goal with
  | |- exits_within _ (bind _ _) => apply exits_within_bind; [|intros ?]
  | |- exits_within _ (ret _) => apply exits_within_ret
  | |- exits_within _ (print _) => apply exits_within_print
  | |- exits_within _ (raise _) => apply exits_within_raise
  | |- exits_within _ ask => apply exits_within_ask
  | |- exits_within _ (read_file _) => apply exits_within_read_file
  | |- exits_within _ (write_file _ _) => apply exits_within_write_file
  | |- exits_within _ (sys_exit _) => apply exits_within_sys_exit; auto
  | |- exits_within _ (if ?b then _ else _) => destruct b
  | |- exits_within _ (match ?x with _ => _ end) => destruct x
  end.

Lemma exits_read_lspatches_loop lines filename : forall patches,
  exits_within zero_or_one (read_lspatches_loop patches lines filename).
Proof.
  induction lines as [|l r IH]; intros patches.
  - apply exits_within_ret.
  - rewrite read_lspatches_loop_cons.
    destruct (split_once ";" (strip l)) as [[num desc]|]; [|apply IH].
    destruct (int num); [apply IH|].
    repeat exits_step. now right.
Qed.

Lemma exits_read_patches filename : exits_within zero_or_one (read_patches filename).
Proof.
  unfold read_patches. repeat exits_step; try (now right).
  apply exits_read_lspatches_loop.
Qed.

Lemma exits_run_opatch src : exits_within zero_or_one (run_opatch src).
Proof.
  unfold run_opatch, check_opatch_path, read_opatch_output.
  repeat exits_step; try (now right); apply exits_read_lspatches_loop.
Qed.

Lemma exits_read_opatch_source src :
  exits_within zero_or_one (read_opatch_source src).
Proof.
  unfold read_opatch_source.
  repeat exits_step; try apply exits_read_patches; apply exits_run_opatch.
Qed.

Lemma exits_find_release_update d ks :
  exits_within zero_or_one (find_release_update d ks).
Proof. induction ks as [|k r IH]; simpl; repeat exits_step. exact IH. Qed.

Lemma exits_print_release_update d :
  exits_within zero_or_one (print_release_update d).
Proof.
  unfold print_release_update.
  destruct (is_nil d); [apply exits_within_ret|].
  apply exits_within_bind; [apply exits_within_print|intros _].
  generalize (keys d). intros ks.
  induction ks as [|k r IH]; simpl; repeat exits_step. exact IH.
Qed.

Lemma exits_print_unique short tail d nums :
  exits_within zero_or_one (print_unique short tail d nums).
Proof. induction nums as [|n r IH]; simpl; repeat exits_step; exact IH. Qed.

Lemma exits_compare_patches short first second p1 p2 :
  exits_within zero_or_one (compare_patches short first second p1 p2).
Proof.
  unfold compare_patches, check_release_update.
  repeat exits_step;
    try apply exits_find_release_update;
    try apply exits_print_unique; now left.
Qed.

Lemma no_return_compare_patches short first second p1 p2 :
  no_return (compare_patches short first second p1 p2).
Proof.
  unfold compare_patches.
  repeat (apply no_return_bind; intros ?). apply no_return_sys_exit.
Qed.

Lemma exits_prepare_patches short first second ru :
  exits_within zero_or_one (prepare_patches short first second ru).
Proof.
  unfold prepare_patches.
  repeat exits_step;
    try apply exits_read_opatch_source;
    try apply exits_print_release_update;
    try apply exits_compare_patches;
    solve [now left | now right].
Qed.

Lemma no_return_prepare_patches short first second ru :
  no_return (prepare_patches short first second ru).
Proof.
  unfold prepare_patches.
  apply no_return_bind. intros patches1. apply no_return_bind. intros _.
  destruct (is_nil patches1); [apply no_return_sys_exit|].
  destruct second as [second|]; [|apply no_return_sys_exit].
  apply no_return_bind. intros _. apply no_return_bind. intros patches2.
  apply no_return_bind. intros _.
  destruct (is_nil patches2); [apply no_return_sys_exit|].
  destruct ru; [apply no_return_sys_exit|apply no_return_compare_patches].
Qed.

(** X13.  [prepare_patches] never returns to its caller, and neither does
    [compare_patches]: every run ends in [sys.exit] with status 0 or 1, or
    in an uncaught exception. *)
Theorem prepare_patches_always_exits :
  forall (short : bool) (first : OPatchArg) (second : option OPatchArg)
         (ru : bool) (p1 p2 : patch_set) (w : world),
    match snd (prepare_patches short first second ru w) with
    | Ok _ => False
    | SysExit c => c = 0 \/ c = 1
    | Raised _ => True
    end
    /\ match second with
       | Some s =>
           match snd (compare_patches short first s p1 p2 w) with
           | Ok _ => False
           | SysExit c => c = 0
           | Raised _ => True
           end
       | None => True
       end.
Proof.
  intros short first second ru p1 p2 w. split.
  - destruct (prepare_patches short first second ru w) as [w' [a|c|e]] eqn:E;
      simpl; [|exact (exits_prepare_patches _ _ _ _ _ _ _ E)|exact I].
    exact (no_return_prepare_patches _ _ _ _ _ _ _ E).
  - destruct second as [s|]; [|exact I].
    destruct (compare_patches short first s p1 p2 w) as [w' [a|c|e]] eqn:E;
      simpl; [|  |exact I].
    + exact (no_return_compare_patches _ _ _ _ _ _ _ _ E).
    + assert (Hz : exits_within (fun c => c = 0)
                     (compare_patches short first s p1 p2)).
      { unfold compare_patches, check_release_update.
        assert (Hfind : forall d ks, exits_within (fun c => c = 0)
                                       (find_release_update d ks)).
        { intros d ks. induction ks as [|k r IH]; simpl; repeat exits_step.
          exact IH. }
        assert (Hun : forall tail d nums, exits_within (fun c => c = 0)
                                            (print_unique short tail d nums)).
        { intros tail d nums. induction nums as [|n r IH]; simpl;
            repeat exits_step; exact IH. }
        repeat exits_step; try apply Hfind; apply Hun. }
      exact (Hz _ _ _ E).
Qed.

(** ** Querying an Oracle home *)

Lemma startswith_append p x : startswith p (p ++ x) = true.
Proof.
  unfold startswith. induction p as [|a r IH]; simpl.
  - now destruct x.
  - destruct (ascii_dec a a); [exact IH|congruence].
Qed.

Lemma check_opatch_path_rejects oracle_home w :
  isdir w oracle_home && path_exists w (opatch_path_of oracle_home)
  && isfile w (opatch_path_of oracle_home)
  && access_x w (opatch_path_of oracle_home) = false ->
  exists msg,
    startswith "error: " msg = true
    /\ check_opatch_path oracle_home w
       = (with_stdout (stdout w ++ [msg]) w, Ok None).
Proof.
  intros H. unfold check_opatch_path, bind, ask.
  destruct (isdir w oracle_home); simpl in H.
  - destruct (path_exists w (opatch_path_of oracle_home)); simpl in H.
    + destruct (isfile w (opatch_path_of oracle_home)); simpl in H.
      * rewrite H. cbn [negb orb].
        exists ("error: " ++ opatch_path_of oracle_home ++ " is not an executable file").
        split; [apply startswith_append|reflexivity].
      * cbn [negb orb].
        exists ("error: " ++ opatch_path_of oracle_home ++ " is not an executable file").
        split; [apply startswith_append|reflexivity].
    + cbn [negb].
      exists ("error: " ++ "the directory or file " ++ opatch_path_of oracle_home
                ++ " does not exist").
      split; [apply startswith_append|reflexivity].
  - cbn [negb].
    exists ("error: " ++ "the directory " ++ oracle_home ++ " does not exist").
    split; [apply startswith_append|reflexivity].
Qed.

Lemma check_opatch_path_accepts oracle_home w :
  isdir w oracle_home = true ->
  path_exists w (opatch_path_of oracle_home) = true ->
  isfile w (opatch_path_of oracle_home) = true ->
  access_x w (opatch_path_of oracle_home) = true ->
  check_opatch_path oracle_home w = (w, Ok (Some (opatch_path_of oracle_home))).
Proof.
  intros H1 H2 H3 H4. unfold check_opatch_path, bind, ask.
  now rewrite H1, H2, H3, H4.
Qed.

Lemma is_empty_append_nonempty a c b : is_empty (a ++ String c b) = false.
Proof. now destruct a. Qed.

Lemma opatch_path_of_nonempty oracle_home :
  is_empty (opatch_path_of oracle_home) = false.
Proof. unfold opatch_path_of. apply is_empty_append_nonempty. Qed.

(** X14.  An Oracle home that is not a directory, or whose
    [OPatch/opatch] is missing, is not a file or is not executable, is
    only reported: [run_opatch] prints one error line, runs nothing and
    returns the empty Patch Set; as the first source this makes
    [prepare_patches] add that no patches were found in the Oracle home
    and end the run with exit status 1. *)
Theorem run_opatch_rejected_home :
  forall (short : bool) (src : OPatchArg) (second : option OPatchArg)
         (ru : bool) (w : world),
    source src = "oracle_home" ->
    isdir w (path src) && path_exists w (opatch_path_of (path src))
    && isfile w (opatch_path_of (path src))
    && access_x w (opatch_path_of (path src)) = false ->
    exists msg,
      startswith "error: " msg = true
      /\ run_opatch src w = (with_stdout (stdout w ++ [msg]) w, Ok [])
      /\ prepare_patches short src second ru w
         = (with_stdout
              (stdout w ++ [msg; "No patches found in the Oracle Home " ++ path src]) w,
            SysExit 1).
Proof.
  intros short src second ru w Hsrc Hbad.
  destruct (check_opatch_path_rejects _ _ Hbad) as (msg & Hmsg & Hcheck).
  assert (Hrun : run_opatch src w = (with_stdout (stdout w ++ [msg]) w, Ok []))
    by (unfold run_opatch; now rewrite (bind_ok _ _ _ _ _ Hcheck)).
  exists msg. split; [exact Hmsg|]. split; [exact Hrun|].
  assert (Hread : read_opatch_source src w
                  = (with_stdout
                       (stdout w ++ [msg; "No patches found in the Oracle Home "
                                            ++ path src]) w, Ok [])).
  { unfold read_opatch_source. rewrite Hsrc.
    change (String.eqb "oracle_home" "file") with false.
    change (String.eqb "oracle_home" "oracle_home") with true. cbv iota.
    rewrite (bind_ok _ _ _ _ _ Hrun). cbn [is_nil].
    unfold bind, print, ret. cbn [stdout with_stdout].
    now rewrite <- app_assoc. }
  unfold prepare_patches. rewrite (bind_ok _ _ _ _ _ Hread).
  destruct (ru || negb match second with Some _ => true | None => false end);
    reflexivity.
Qed.

Lemma run_opatch_rejected_home_witness :
  exists msg,
    startswith "error: " msg = true
    /\ run_opatch (mk_OPatchArg "oracle_home" "/nowhere" true false None) home_world
       = (with_stdout (stdout home_world ++ [msg]) home_world, Ok [])
    /\ prepare_patches false (mk_OPatchArg "oracle_home" "/nowhere" true false None)
                       None true home_world
       = (with_stdout
            (stdout home_world
               ++ [msg; "No patches found in the Oracle Home "
                          ++ path (mk_OPatchArg "oracle_home" "/nowhere" true false None)])
            home_world,
          SysExit 1).
Proof.
  apply (run_opatch_rejected_home false
           (mk_OPatchArg "oracle_home" "/nowhere" true false None) None true home_world);
    reflexivity.
Defined.

Lemma files_read_lspatches lines filename w :
  files (fst (read_lspatches lines filename w)) = files w.
Proof.
  destruct (malformed_dec lines) as [H|H].
  - unfold read_lspatches. now rewrite read_lspatches_loop_wellformed.
  - destruct (first_malformed _ H) as (b & x & a & -> & Hb & Hx).
    destruct (read_lspatches_loop_malformed b x a filename [] w Hb Hx)
      as (num & desc & _ & _ & Hrun).
    unfold read_lspatches. now rewrite Hrun.
Qed.

Lemma files_read_opatch_output oracle_home lines is_lspatches w :
  files (fst (read_opatch_output oracle_home lines is_lspatches w)) = files w.
Proof.
  unfold read_opatch_output. destruct is_lspatches.
  - unfold bind at 1, print at 1.
    now rewrite files_read_lspatches.
  - reflexivity.
Qed.

(** X15.  The raw output is saved before it is decoded.  When the
    Oracle home passes the checks, [opatch] succeeds with non-empty
    output and an output file is named: if the file can be written, it
    holds exactly that output when [run_opatch] ends, however the
    decoding ends (a fatal malformed line included), and decoding starts
    after the two notices; if it cannot be written, the run ends in an
    [OSError] before anything is decoded. *)
Theorem run_opatch_saves_output_first :
  forall (src : OPatchArg) (w : world) (text out_path : string),
    isdir w (path src) = true ->
    path_exists w (opatch_path_of (path src)) = true ->
    isfile w (opatch_path_of (path src)) = true ->
    access_x w (opatch_path_of (path src)) = true ->
    run_process w [opatch_path_of (path src);
                   if lspatches src then "lspatches" else "lsinventory"] (path src)
    = Completed text ->
    text <> EmptyString ->
    output src = Some out_path -> out_path <> EmptyString ->
    (writable w out_path = true ->
     run_opatch src w
     = read_opatch_output (path src) (splitlines text) (lspatches src)
         (with_stdout
            (stdout w ++ ["Running command: " ++ opatch_path_of (path src) ++ " "
                            ++ (if lspatches src then "lspatches" else "lsinventory");
                          "OPatch output saved to file: " ++ out_path])
            (with_file out_path text w))
     /\ files (fst (run_opatch src w)) out_path = Some text)
    /\ (writable w out_path = false ->
        run_opatch src w
        = (with_stdout
             (stdout w ++ ["Running command: " ++ opatch_path_of (path src) ++ " "
                             ++ (if lspatches src then "lspatches" else "lsinventory")])
             w,
           Raised OSError)).
Proof.
  intros src w text out_path H1 H2 H3 H4 Hproc Htext Hout Hne.
  assert (Hte : is_empty text = false)
    by (destruct text; [exfalso; now apply Htext|reflexivity]).
  assert (Hoe : is_empty out_path = false)
    by (destruct out_path; [exfalso; now apply Hne|reflexivity]).
  assert (Hrun :
    run_opatch src w
    = (if negb (is_empty text) then
         (if truthy_str (output src) then
            write_file (str_of_opt (output src)) text ;;
            print ("OPatch output saved to file: " ++ str_of_opt (output src))
          else ret tt) ;;
         read_opatch_output (path src) (splitlines text) (lspatches src)
       else ret [])
        (with_stdout
           (stdout w ++ ["Running command: " ++ opatch_path_of (path src) ++ " "
                           ++ (if lspatches src then "lspatches" else "lsinventory")])
           w)).
  { unfold run_opatch.
    rewrite (bind_ok _ _ _ _ _ (check_opatch_path_accepts _ _ H1 H2 H3 H4)).
    rewrite opatch_path_of_nonempty.
    unfold bind at 1, print at 1. unfold bind at 1, ask at 1.
    cbn [run_process with_stdout]. rewrite Hproc.
    unfold join. cbn [String.concat]. reflexivity. }
  rewrite Hrun, Hte, Hout. cbn [negb truthy_str str_of_opt]. rewrite Hoe.
  cbn [negb]. split.
  - intros Hw.
    assert (E : forall k : list string -> M patch_set,
      ((write_file out_path text ;;
        print ("OPatch output saved to file: " ++ out_path)) ;; k (splitlines text))
        (with_stdout
           (stdout w ++ ["Running command: " ++ opatch_path_of (path src) ++ " "
                           ++ (if lspatches src then "lspatches" else "lsinventory")])
           w)
      = k (splitlines text)
          (with_stdout
             (stdout w ++ ["Running command: " ++ opatch_path_of (path src) ++ " "
                             ++ (if lspatches src then "lspatches" else "lsinventory");
                           "OPatch output saved to file: " ++ out_path])
             (with_file out_path text w))).
    { intros k. unfold bind, write_file, print. cbn [writable with_stdout].
      rewrite Hw. cbn [stdout with_stdout with_file]. now rewrite <- app_assoc. }
    rewrite (E (fun lines => read_opatch_output (path src) lines (lspatches src))).
    split; [reflexivity|].
    rewrite files_read_opatch_output. cbn [files with_stdout with_file].
    now rewrite String.eqb_refl.
  - intros Hw. unfold bind, write_file. cbn [writable with_stdout]. now rewrite Hw.
Qed.

Lemma run_opatch_saves_output_first_witness :
  files (fst (run_opatch (mk_OPatchArg "oracle_home" "/u01/db" true false (Some "out.txt"))
                         home_world)) "out.txt"
  = Some ("36912597;Database Release Update : 19.24" ++ LF).
Proof.
  apply (proj1 (run_opatch_saves_output_first
           (mk_OPatchArg "oracle_home" "/u01/db" true false (Some "out.txt"))
           home_world ("36912597;Database Release Update : 19.24" ++ LF) "out.txt"
           eq_refl eq_refl eq_refl eq_refl eq_refl
           ltac:(discriminate) eq_refl ltac:(discriminate))).
  reflexivity.
Defined.

(** X16.  When the Oracle home passes the checks but [opatch] fails, the
    run prints the command, then an error line with the captured error
    text, and ends with exit status 1; when [opatch] succeeds and prints
    nothing, the home counts as holding no patches: the run prints that no
    patches were found in it and ends with exit status 1 as well. *)
Theorem prepare_patches_opatch_failure :
  forall (short : bool) (src : OPatchArg) (second : option OPatchArg)
         (ru : bool) (w : world),
    source src = "oracle_home" ->
    isdir w (path src) = true ->
    path_exists w (opatch_path_of (path src)) = true ->
    isfile w (opatch_path_of (path src)) = true ->
    access_x w (opatch_path_of (path src)) = true ->
    (forall err,
        run_process w [opatch_path_of (path src);
                       if lspatches src then "lspatches" else "lsinventory"] (path src)
        = CalledProcessError err ->
        prepare_patches short src second ru w
        = (with_stdout
             (stdout w
                ++ ["Running command: " ++ opatch_path_of (path src) ++ " "
                      ++ (if lspatches src then "lspatches" else "lsinventory");
                    "error: command "
                      ++ fmt_list w [opatch_path_of (path src);
                                     if lspatches src then "lspatches" else "lsinventory"]
                      ++ " failed with error: " ++ err]) w,
           SysExit 1))
    /\ (run_process w [opatch_path_of (path src);
                       if lspatches src then "lspatches" else "lsinventory"] (path src)
        = Completed EmptyString ->
        prepare_patches short src second ru w
        = (with_stdout
             (stdout w
                ++ ["Running command: " ++ opatch_path_of (path src) ++ " "
                      ++ (if lspatches src then "lspatches" else "lsinventory");
                    "No patches found in the Oracle Home " ++ path src]) w,
           SysExit 1)).
Proof.
  intros short src second ru w Hsrc H1 H2 H3 H4.
  assert (Hrun : forall r,
    run_process w [opatch_path_of (path src);
                   if lspatches src then "lspatches" else "lsinventory"] (path src) = r ->
    run_opatch src w
    = match r with
      | Completed out =>
          if negb (is_empty out) then
            ((if truthy_str (output src) then
                write_file (str_of_opt (output src)) out ;;
                print ("OPatch output saved to file: " ++ str_of_opt (output src))
              else ret tt) ;;
             read_opatch_output (path src) (splitlines out) (lspatches src))
              (with_stdout
                 (stdout w ++ ["Running command: " ++ opatch_path_of (path src) ++ " "
                                 ++ (if lspatches src then "lspatches" else "lsinventory")])
                 w)
          else
            (with_stdout
               (stdout w ++ ["Running command: " ++ opatch_path_of (path src) ++ " "
                               ++ (if lspatches src then "lspatches" else "lsinventory")])
               w, Ok [])
      | CalledProcessError err =>
          (with_stdout
             (stdout w
                ++ ["Running command: " ++ opatch_path_of (path src) ++ " "
                      ++ (if lspatches src then "lspatches" else "lsinventory");
                    "error: command "
                      ++ fmt_list w [opatch_path_of (path src);
                                     if lspatches src then "lspatches" else "lsinventory"]
                      ++ " failed with error: " ++ err]) w,
           SysExit 1)
      | NotStarted =>
          (with_stdout
             (stdout w ++ ["Running command: " ++ opatch_path_of (path src) ++ " "
                             ++ (if lspatches src then "lspatches" else "lsinventory")])
             w, Raised OSError)
      end).
  { intros r Hr. unfold run_opatch.
    rewrite (bind_ok _ _ _ _ _ (check_opatch_path_accepts _ _ H1 H2 H3 H4)).
    rewrite opatch_path_of_nonempty.
    unfold bind at 1, print at 1. unfold bind at 1, ask at 1.
    cbn [run_process with_stdout]. rewrite Hr.
    unfold join. cbn [String.concat].
    destruct r as [out|err|]; [|  |reflexivity].
    - now destruct (negb (is_empty out)).
    - unfold bind, print, sys_exit. cbn [stdout with_stdout fmt_list].
      now rewrite <- app_assoc. }
  assert (Hsource : read_opatch_source src w
                    = (patches <- run_opatch src ;;
                       (if is_nil patches
                        then print ("No patches found in the Oracle Home " ++ path src)
                        else ret tt) ;;
                       ret patches) w).
  { unfold read_opatch_source. rewrite Hsrc. reflexivity. }
  split.
  - intros err Hproc. apply prepare_patches_first_exit.
    rewrite Hsource. apply bind_exit. now rewrite (Hrun _ Hproc).
  - intros Hproc. specialize (Hrun _ Hproc). cbn [is_empty negb] in Hrun.
    assert (Hread :
      read_opatch_source src w
      = (with_stdout
           (stdout w
              ++ ["Running command: " ++ opatch_path_of (path src) ++ " "
                    ++ (if lspatches src then "lspatches" else "lsinventory");
                  "No patches found in the Oracle Home " ++ path src]) w,
         Ok [])).
    { rewrite Hsource. rewrite (bind_ok _ _ _ _ _ Hrun). cbn [is_nil].
      unfold bind, print, ret. cbn [stdout with_stdout].
      now rewrite <- app_assoc. }
    unfold prepare_patches. rewrite (bind_ok _ _ _ _ _ Hread).
    destruct (ru || negb match second with Some _ => true | None => false end);
      reflexivity.
Qed.

Lemma prepare_patches_opatch_failure_witness :
  prepare_patches false (mk_OPatchArg "oracle_home" "/u01/db" false true None)
                  None false home_world
  = (with_stdout
       (stdout home_world
          ++ ["Running command: " ++ opatch_path_of "/u01/db" ++ " " ++ "lsinventory";
              "error: command "
                ++ fmt_list home_world [opatch_path_of "/u01/db"; "lsinventory"]
                ++ " failed with error: " ++ "failed"]) home_world,
     SysExit 1).
Proof.
  apply (proj1 (prepare_patches_opatch_failure false
           (mk_OPatchArg "oracle_home" "/u01/db" false true None) None false home_world
           eq_refl eq_refl eq_refl eq_refl eq_refl) "failed").
  reflexivity.
Defined.

(** ** The oratab walk *)

Lemma in_found_In h found : in_found h found = true <-> In h found.
Proof.
  unfold in_found. rewrite existsb_exists. split.
  - intros (x & Hx & E). apply String.eqb_eq in E. now subst.
  - intros H. exists h. split; [exact H|apply String.eqb_refl].
Qed.

Lemma oratab_loop_cons found line rest w :
  oratab_loop found (line :: rest) w
  = match oratab_entry line with
    | None => oratab_loop found rest w
    | Some None => (w, OratabIndexError)
    | Some (Some oracle_home) =>
        if in_found oracle_home found then oratab_loop found rest w
        else
          match oratab_check_home oracle_home w with
          | (w', Ok _) => oratab_loop (oracle_home :: found) rest w'
          | (w', SysExit c) => (w', OratabExit c)
          | (w', Raised e) => (w', OratabRaised e)
          end
    end.
Proof.
  cbn [oratab_loop]. unfold oratab_entry.
  destruct (is_empty (strip line) || startswith "#" (strip line)); [reflexivity|].
  now destruct (second_field ":" (strip line)).
Qed.

Lemma oratab_loop_homes lines : forall found w,
  Forall (fun l => oratab_entry l <> Some None) lines ->
  oratab_loop found lines w = check_homes (new_homes found lines) w.
Proof.
  induction lines as [|l r IH]; intros found w Hall; [reflexivity|].
  inversion Hall as [|? ? Hl Hr]; subst.
  rewrite oratab_loop_cons. cbn [new_homes].
  destruct (oratab_entry l) as [[h|]|]; [|congruence|now apply IH].
  destruct (in_found h found); [now apply IH|].
  cbn [check_homes].
  destruct (oratab_check_home h w) as [w' [a|c|e]]; [now apply IH| |]; reflexivity.
Qed.

Lemma new_homes_spec lines : forall found,
  NoDup (new_homes found lines)
  /\ forall h, In h (new_homes found lines)
               <-> (exists l, In l lines /\ oratab_entry l = Some (Some h))
                   /\ ~ In h found.
Proof.
  induction lines as [|l r IH]; intros found.
  - split; [constructor|]. intros h. simpl. split; [tauto|].
    intros [(x & [] & _) _].
  - cbn [new_homes].
    destruct (oratab_entry l) as [[h0|]|] eqn:E.
    + destruct (in_found h0 found) eqn:F.
      * destruct (IH found) as [Hnd Hin]. split; [exact Hnd|].
        intros h. rewrite Hin. apply in_found_In in F. split.
        -- intros [(x & Hx & Ex) Hn]. split; [|exact Hn]. exists x. split; [now right|exact Ex].
        -- intros [(x & [<-|Hx] & Ex) Hn]; split; try exact Hn.
           ++ rewrite E in Ex. injection Ex as <-. contradiction.
           ++ now exists x.
      * destruct (IH (h0 :: found)) as [Hnd Hin].
        assert (Hnf : ~ In h0 found).
        { intros H. apply in_found_In in H. congruence. }
        split.
        -- constructor; [|exact Hnd]. rewrite Hin. intros [_ Hn]. apply Hn. now left.
        -- intros h. simpl. rewrite Hin. split.
           ++ intros [<-|[(x & Hx & Ex) Hn]].
              ** split; [|exact Hnf]. exists l. split; [now left|exact E].
              ** split; [|intros H; apply Hn; now right].
                 exists x. split; [now right|exact Ex].
           ++ intros [(x & [<-|Hx] & Ex) Hn].
              ** rewrite E in Ex. injection Ex as <-. now left.
              ** destruct (string_dec h0 h) as [->|Hne]; [now left|].
                 right. split; [now exists x|]. intros [H|H]; [congruence|contradiction].
    + destruct (IH found) as [Hnd Hin]. split; [exact Hnd|].
      intros h. rewrite Hin. split.
      * intros [(x & Hx & Ex) Hn]. split; [|exact Hn]. exists x. split; [now right|exact Ex].
      * intros [(x & [<-|Hx] & Ex) Hn]; [congruence|]. split; [now exists x|exact Hn].
    + destruct (IH found) as [Hnd Hin]. split; [exact Hnd|].
      intros h. rewrite Hin. split.
      * intros [(x & Hx & Ex) Hn]. split; [|exact Hn]. exists x. split; [now right|exact Ex].
      * intros [(x & [<-|Hx] & Ex) Hn]; [congruence|]. split; [now exists x|exact Hn].
Qed.

(** X17.  The oratab walk checks each Oracle home once.  When every
    entry of [/etc/oratab] that is neither blank nor a comment has a
    colon, [check_oratab_release_update] does exactly what checking, one
    after the other, the homes named by the entries would do (the home is
    the text between the first and the second colon), each home once, in
    the order of first appearance; blank lines, comment lines and
    repeated homes add nothing. *)
Theorem oratab_checks_each_home_once :
  forall (w : world) (text : string),
    files w "/etc/oratab" = Some text ->
    Forall (fun l => oratab_entry l <> Some None) (file_lines text) ->
    check_oratab_release_update w
    = check_homes (new_homes [] (file_lines text)) w
    /\ NoDup (new_homes [] (file_lines text))
    /\ forall h, In h (new_homes [] (file_lines text))
                 <-> exists l, In l (file_lines text)
                               /\ oratab_entry l = Some (Some h).
Proof.
  intros w text Hf Hall. unfold check_oratab_release_update. rewrite Hf.
  split; [now apply oratab_loop_homes|].
  destruct (new_homes_spec (file_lines text) []) as [Hnd Hin].
  split; [exact Hnd|]. intros h. rewrite Hin. simpl. tauto.
Qed.

Lemma oratab_checks_each_home_once_witness :
  check_oratab_release_update
    (with_file "/etc/oratab"
       ("# comment" ++ LF ++ "db1:/u01/db:N" ++ LF ++ LF ++ "db2:/u01/db:Y" ++ LF)
       home_world)
  = check_homes ["/u01/db"]
      (with_file "/etc/oratab"
         ("# comment" ++ LF ++ "db1:/u01/db:N" ++ LF ++ LF ++ "db2:/u01/db:Y" ++ LF)
         home_world).
Proof.
  apply (proj1 (oratab_checks_each_home_once
           (with_file "/etc/oratab"
              ("# comment" ++ LF ++ "db1:/u01/db:N" ++ LF ++ LF ++ "db2:/u01/db:Y" ++ LF)
              home_world)
           ("# comment" ++ LF ++ "db1:/u01/db:N" ++ LF ++ LF ++ "db2:/u01/db:Y" ++ LF)
           eq_refl
           ltac:(repeat constructor; discriminate))).
Defined.

Lemma oratab_loop_bad_line before bad after : forall found w,
  Forall (fun l => oratab_entry l <> Some None) before ->
  oratab_entry bad = Some None ->
  oratab_loop found (before ++ bad :: after) w
  = match check_homes (new_homes found before) w with
    | (w', OratabReturn) => (w', OratabIndexError)
    | other => other
    end.
Proof.
  induction before as [|l r IH]; intros found w Hall Hbad.
  - cbn [app new_homes check_homes]. rewrite oratab_loop_cons. now rewrite Hbad.
  - inversion Hall as [|? ? Hl Hr]; subst.
    rewrite <- app_comm_cons, oratab_loop_cons. cbn [new_homes].
    destruct (oratab_entry l) as [[h|]|]; [|congruence|now apply IH].
    destruct (in_found h found); [now apply IH|].
    cbn [check_homes].
    destruct (oratab_check_home h w) as [w' [a|c|e]]; [now apply IH| |]; reflexivity.
Qed.

(** X18.  An oratab entry without a colon stops the walk with an error.
    If a line of [/etc/oratab] is, once trimmed, not empty, not a comment
    and without a colon, then [check_oratab_release_update] checks the
    homes of the lines before it and, unless one of those checks ends the
    run first, ends in an uncaught [IndexError]; the lines after it are
    never read. *)
Theorem oratab_line_without_colon :
  forall (w : world) (text : string) (before after : list string) (bad : string),
    files w "/etc/oratab" = Some text ->
    file_lines text = (before ++ bad :: after)%list ->
    Forall (fun l => oratab_entry l <> Some None) before ->
    is_empty (strip bad) = false ->
    startswith "#" (strip bad) = false ->
    contains ":" (strip bad) = false ->
    check_oratab_release_update w
    = match check_homes (new_homes [] before) w with
      | (w', OratabReturn) => (w', OratabIndexError)
      | other => other
      end.
Proof.
  intros w text before after bad Hf Hlines Hbefore Hne Hc Hcolon.
  unfold check_oratab_release_update. rewrite Hf, Hlines.
  apply oratab_loop_bad_line; [exact Hbefore|].
  unfold oratab_entry, second_field. rewrite Hne, Hc. simpl.
  apply contains_split_once in Hcolon. now rewrite Hcolon.
Qed.

Lemma oratab_line_without_colon_witness :
  check_oratab_release_update
    (with_file "/etc/oratab" ("# comment" ++ LF ++ "db1 /u01/db" ++ LF ++ "x:y" ++ LF)
               home_world)
  = (with_file "/etc/oratab" ("# comment" ++ LF ++ "db1 /u01/db" ++ LF ++ "x:y" ++ LF)
               home_world,
     OratabIndexError).
Proof.
  apply (oratab_line_without_colon
           (with_file "/etc/oratab"
              ("# comment" ++ LF ++ "db1 /u01/db" ++ LF ++ "x:y" ++ LF) home_world)
           ("# comment" ++ LF ++ "db1 /u01/db" ++ LF ++ "x:y" ++ LF)
           ["# comment" ++ LF] ["x:y" ++ LF] ("db1 /u01/db" ++ LF));
    try reflexivity.
  repeat constructor. discriminate.
Defined.

Example check_oratab_example :
  let r := check_oratab_release_update
             (with_file "/etc/oratab"
                ("# comment" ++ LF ++ "db1:/u01/db:N" ++ LF ++ "db2:/u01/db:Y" ++ LF)
                home_world) in
  stdout (fst r)
  = ["Checking Release Update for ORACLE_HOME: /u01/db";
     "Running command: /u01/db/OPatch/opatch lspatches";
     "Reading patches from 'opatch lspatches' for ORACLE_HOME: /u01/db...";
     "Database Release Update:";
     "  - Database Release Update : 19.24";
     ""]
  /\ snd r = OratabReturn.
Proof. repeat split. Qed.

(** A file that opens but does not decode: [read_patches] raises the
    decoding error and prints nothing. *)
Example read_patches_undecodable_example :
  let w := mk_world [] (fun _ => None)
             (fun _ => false) (fun _ => false) (fun _ => false) (fun _ => false)
             (fun _ => false) (fun _ _ => NotStarted) (fun _ => "")
             (fun p => if String.eqb p "latin1.txt" then CannotDecode []
                       else CannotOpen) in
  read_patches "latin1.txt" w = (w, Raised UnicodeDecodeError)
  /\ read_patches "missing.txt" w = (w, Raised OSError).
Proof. split; reflexivity. Qed.

(** An oratab whose decoding fails after its first line: that line is
    checked, then the walk ends in the decoding error. *)
Example check_oratab_undecodable_example :
  let w := mk_world [] (fun _ => None) (fun _ => true)
             (fun p => String.eqb p "/u01/db")
             (fun p => String.eqb p "/u01/db/OPatch/opatch")
             (fun p => String.eqb p "/u01/db/OPatch/opatch")
             (fun p => String.eqb p "/u01/db/OPatch/opatch")
             (fun cmd home =>
                match cmd with
                | [_; "lspatches"] =>
                    Completed ("36912597;Database Release Update : 19.24" ++ LF)
                | _ => CalledProcessError "failed"
                end)
             (fun _ => "<cmd>")
             (fun _ => CannotDecode ["db1:/u01/db:N" ++ LF]) in
  let r := check_oratab_release_update w in
  stdout (fst r)
  = ["Checking Release Update for ORACLE_HOME: /u01/db";
     "Running command: /u01/db/OPatch/opatch lspatches";
     "Reading patches from 'opatch lspatches' for ORACLE_HOME: /u01/db...";
     "Database Release Update:";
     "  - Database Release Update : 19.24";
     ""]
  /\ snd r = OratabRaised UnicodeDecodeError.
Proof. repeat split. Qed.
